(** * result.cpp: a Rust-like [Result] / [TRY] error-handling mechanism

    A shallow embedding of [src/result.cpp] and the properties of its
    [Result], [TypedError], [GenericError] and [TRY] that follow from the code.

    Conventions of the embedding.
    - [int] and [long] are [Z]; the only narrowing cast of the source
      ([static_cast<int>] in [ParseInt]) is written out as a wrap-around.
    - [const char*] and [std::string] are [string].
    - [std::shared_ptr<ErrorImpl>] is [option ErrorImpl.t]: the records are
      immutable once built, so a shared record and a copy of it cannot be
      told apart by any function of the source.
    - A C++ class is a [Module] holding a record [t] and its member functions.
    - An expression of the source either yields a value, or leaves through an
      uncaught exception or abort, or has undefined behaviour: [Outcome].
    - Code that reads or writes [errno] is written in a state monad [M]. *)

From Stdlib Require Import ZArith List Bool Ascii String.
From Stdlib Require Import DecimalString DecimalPos DecimalFacts.
From stdpp Require Import base strings gmap.

Local Open Scope string_scope.
Local Open Scope Z_scope.

(** ** Machine integers *)

Definition INT_MAX : Z := 2147483647.
Definition INT_MIN : Z := - 2147483648.
Definition LONG_MAX : Z := 9223372036854775807.
Definition LONG_MIN : Z := - 9223372036854775808.

(** [static_cast<int>(n)] for a [long] n: reduction modulo 2^32 into the
    signed range. *)
Definition static_cast_int (n : Z) : Z :=
  (n + 2147483648) mod 4294967296 - 2147483648.

(** ** Outcomes of evaluating an expression *)

Inductive Outcome (A : Type) : Type :=
| Normal (a : A)   (* the expression yields [a] *)
| Panic            (* abort, failed assertion or uncaught exception *)
| Undefined.       (* undefined behaviour: no check is made by the code *)
Arguments Normal {A} a.
Arguments Panic {A}.
Arguments Undefined {A}.

(** ** Enumerations used as error codes

    [enum class X {...}] has underlying type [int]: [(int)code] and
    [static_cast<X>(n)] convert between the two, and every [int] is a value
    of the enumeration. *)
Class EnumClass (ErrorCode : Type) : Type := {
  to_int : ErrorCode -> Z;                       (* (int)code *)
  from_int : Z -> ErrorCode;                     (* static_cast<ErrorCode>(n) *)
  to_from_int : forall n, to_int (from_int n) = n
}.

(** ** ErrorImpl (lines 30-46) *)
Module ErrorImpl.
Record t : Type := mk {
  code_ : Z;
  file_ : string;
  line_ : Z;
  function_ : string
}.
Definition File (e : t) : string := file_ e.
Definition Line (e : t) : Z := line_ e.
Definition Function (e : t) : string := function_ e.
Definition Code (e : t) : Z := code_ e.
(** [virtual const ErrorImpl* Cause() const { return nullptr; }] *)
Definition Cause (e : t) : option t := None.
End ErrorImpl.

(** ** BaseError (lines 49-82) *)
Module BaseError.
Record t : Type := mk { error_ : option ErrorImpl.t }.

(** [BaseError() {}] *)
Definition default : t := mk None.
(** [BaseError(int code, const char* file, int line, const char* function)] *)
Definition make (code : Z) (file : string) (line : Z) (function : string) : t :=
  mk (Some (ErrorImpl.mk code file line function)).

Definition RawCode (e : t) : Z :=
  match error_ e with
  | None => 0
  | Some r => ErrorImpl.Code r
  end.

(** [explicit operator bool() const] *)
Definition operator_bool (e : t) : bool :=
  match error_ e with
  | None => false
  | Some r => negb (ErrorImpl.Code r =? 0)
  end.
(** [bool operator!() const] *)
Definition operator_not (e : t) : bool := negb (operator_bool e).

(** [std::string Message() const { // TODO: uses ErrorCodeTraits
                                    return ""; }] *)
Definition Message (e : t) : string := "".

(** [error_->File()] and its siblings dereference the pointer unchecked. *)
Definition File (e : t) : Outcome string :=
  match error_ e with
  | None => Undefined
  | Some r => Normal (ErrorImpl.File r)
  end.
Definition Line (e : t) : Outcome Z :=
  match error_ e with
  | None => Undefined
  | Some r => Normal (ErrorImpl.Line r)
  end.
Definition Function (e : t) : Outcome string :=
  match error_ e with
  | None => Undefined
  | Some r => Normal (ErrorImpl.Function r)
  end.
End BaseError.

(** The classes derived from [BaseError]: what [Result] needs of its
    [ErrorType] parameter is the base sub-object (for [!error_]) and the
    default constructor. *)
Class ErrorType (E : Type) : Type := {
  to_base : E -> BaseError.t;
  default_error : E;
  to_base_default : to_base default_error = BaseError.default
}.

(** ** TypedError<ErrorCode> (lines 86-104) *)
Module TypedError.
Record t (ErrorCode : Type) : Type := mk { base : BaseError.t }.
Arguments mk {ErrorCode} base.
Arguments base {ErrorCode} _.

Section Members.
Context {ErrorCode : Type} `{EnumClass ErrorCode}.

(** [TypedError() {}] *)
Definition default : t ErrorCode := mk BaseError.default.
(** [TypedError(ErrorCode code, file, line, function)]; the three
    defaulted arguments are the location of the call. *)
Definition make (code : ErrorCode) (file : string) (line : Z)
    (function : string) : t ErrorCode :=
  mk (BaseError.make (to_int code) file line function).
Definition Code (e : t ErrorCode) : ErrorCode :=
  from_int (BaseError.RawCode (base e)).
End Members.
End TypedError.

#[export] Instance TypedError_ErrorType (ErrorCode : Type) :
    ErrorType (TypedError.t ErrorCode) :=
  {| to_base := TypedError.base;
     default_error := TypedError.mk BaseError.default;
     to_base_default := eq_refl |}.

(** ** GenericError (lines 107-127) *)
Module GenericError.
Record t : Type := mk { base : BaseError.t }.

(** [GenericError() {}] *)
Definition default : t := mk BaseError.default.
(** [GenericError(int code, file, line, function)] *)
Definition make (code : Z) (file : string) (line : Z) (function : string) : t :=
  mk (BaseError.make code file line function).
(** [template <typename ErrorType>
     GenericError(ErrorType error) : BaseError(error) {}]:
    the base sub-object of [error] is copied, the record is shared. *)
Definition from {E : Type} `{ErrorType E} (error : E) : t :=
  mk (to_base error).
Definition Code (e : t) : Z := BaseError.RawCode (base e).
End GenericError.

#[export] Instance GenericError_ErrorType : ErrorType GenericError.t :=
  {| to_base := GenericError.base;
     default_error := GenericError.default;
     to_base_default := eq_refl |}.

(** The member functions inherited from [BaseError], on any derived class. *)
Section Inherited.
Context {E : Type} `{ErrorType E}.
Definition operator_bool (e : E) : bool := BaseError.operator_bool (to_base e).
Definition operator_not (e : E) : bool := BaseError.operator_not (to_base e).
Definition RawCode (e : E) : Z := BaseError.RawCode (to_base e).
Definition Message (e : E) : string := BaseError.Message (to_base e).
Definition File (e : E) : Outcome string := BaseError.File (to_base e).
Definition Line (e : E) : Outcome Z := BaseError.Line (to_base e).
Definition Function (e : E) : Outcome string := BaseError.Function (to_base e).
(** The record behind the wrapper and, through [ErrorImpl::Cause], the
    record that caused it. *)
Definition Record_ (e : E) : option ErrorImpl.t := BaseError.error_ (to_base e).
Definition Cause (e : E) : option ErrorImpl.t :=
  match Record_ e with
  | None => None
  | Some r => ErrorImpl.Cause r
  end.
End Inherited.

(** Initialising an [ErrorType] member from an error of type [E2]
    ([error_(error)] in the constructors of [Result]): the copy constructor
    when the types agree, the converting constructor of [GenericError]
    otherwise.  No other error type has a constructor from an error. *)
Class ErrorInto (E2 E : Type) : Type := error_into : E2 -> E.
#[export] Instance ErrorInto_same (E : Type) : ErrorInto E E | 0 := fun e => e.
#[export] Instance ErrorInto_generic (E2 : Type) `{ErrorType E2} :
    ErrorInto E2 GenericError.t | 1 := fun e => GenericError.from e.


(** ** Result<T, ErrorType> (lines 134-185) *)
Module Result.
(** [union { T value_; }; ErrorType error_;]: the union member is
    constructed by [Result(T value)] only; [None] is storage that no
    constructor has initialised. *)
Record t (T E : Type) : Type := mk { value_ : option T; error_ : E }.
Arguments mk {T E} value_ error_.
Arguments value_ {T E} _.
Arguments error_ {T E} _.

(** The public member functions of the class, constructors apart. *)
Definition public_members : list string :=
  ["operator->"; "Value"; "ValueOr"; "OK"; "Error"].

Section Members.
Context {T E : Type} `{ErrorType E}.

(** [Result(T value) : value_(std::move(value)) {}] *)
Definition of_value (value : T) : t T E := mk (Some value) default_error.
(** [Result(ErrorType error) : error_(std::move(error)) {}] *)
Definition of_error (error : E) : t T E := mk None error.
(** [template <typename ErrorType2> Result(ErrorType2 error, ...)
       : error_(error) {}] *)
Definition from_error {E2 : Type} `{ErrorInto E2 E} (error : E2) : t T E :=
  mk None (error_into error).

(** [bool OK() const { return !error_; }] *)
Definition OK (r : t T E) : bool := operator_not (error_ r).
(** [const ErrorType& Error() const { return error_; }] *)
Definition Error (r : t T E) : E := error_ r.
(** [const T& Value() const { return value_; }]: the union member is read
    as it is. *)
Definition Value (r : t T E) : Outcome T :=
  match value_ r with
  | Some v => Normal v
  | None => Undefined
  end.
(** [T ValueOr(T default_value) const] *)
Definition ValueOr (r : t T E) (default_value : T) : Outcome T :=
  if OK r then Value r else Normal default_value.

(** [Result(const Result& src) : error_(std::move(src.error_))
      { if (!error_) new(&value_) T(src.value_); }]: when the error is
    falsy the value of the source is copy-constructed, whether or not the
    source ever constructed it. *)
Definition copy (src : t T E) : Outcome (t T E) :=
  let error := error_ src in
  if operator_not error
  then match value_ src with
       | Some v => Normal (mk (Some v) error)
       | None => Undefined
       end
  else Normal (mk None error).

(** [~Result() { if (OK()) { value_.~T(); } }]: the outcome is the value
    whose destructor runs, if any; running it on storage that was never
    constructed is undefined. *)
Definition destructor (r : t T E) : Outcome (option T) :=
  if OK r
  then match value_ r with
       | Some v => Normal (Some v)
       | None => Undefined
       end
  else Normal None.
End Members.
End Result.

(** ** The state monad of the effectful code *)

Definition M (S A : Type) : Type := S -> Outcome (A * S).

Definition ret {S A : Type} (a : A) : M S A := fun s => Normal (a, s).

Definition bind {S A B : Type} (m : M S A) (k : A -> M S B) : M S B :=
  fun s =>
    match m s with
    | Normal (a, s') => k a s'
    | Panic => Panic
    | Undefined => Undefined
    end.

(** A pure expression used inside effectful code. *)
Definition lift {S A : Type} (o : Outcome A) : M S A :=
  fun s =>
    match o with
    | Normal a => Normal (a, s)
    | Panic => Panic
    | Undefined => Undefined
    end.

Notation "'let*' x ':=' m 'in' k" := (bind m (fun x => k))
  (at level 10, x pattern, m at level 100, k at level 200).
Notation "'run' m 'in' k" := (bind m (fun _ => k))
  (at level 10, m at level 100, k at level 200).

(** ** Result<void, ErrorType> (lines 188-206) *)
Module ResultVoid.
Record t (E : Type) : Type := mk { error_ : E }.
Arguments mk {E} error_.
Arguments error_ {E} _.

(** The public member functions of the specialisation, constructors apart. *)
Definition public_members : list string := ["IgnoreError"; "OK"].

Section Members.
Context {E : Type} `{ErrorType E}.

(** [Result() {}] *)
Definition default : t E := mk default_error.
(** [Result(ErrorType error) : error_(std::move(error)) {}] *)
Definition of_error (error : E) : t E := mk error.
(** [template <typename ErrorType2> Result(ErrorType2 error, ...)] *)
Definition from_error {E2 : Type} `{ErrorInto E2 E} (error : E2) : t E :=
  mk (error_into error).

(** [void IgnoreError() const {}] *)
Definition IgnoreError {S : Type} (r : t E) : M S unit := ret tt.
(** [bool OK() const { return !error_; }] *)
Definition OK (r : t E) : bool := operator_not (error_ r).
End Members.
End ResultVoid.

(** [Result<void> OK() { return {}; }] *)
Definition OK : ResultVoid.t GenericError.t := ResultVoid.default.

(** ** TRY (lines 226-230)

    [({ auto&& result = stmt;
        if (!result.OK()) return result.Error();
        std::move(result).Value(); })]

    [stmt] is the operand, an effectful expression; [rest] is what the
    enclosing function does with the value of the statement expression up to
    its own [return].  The [return] inside the macro leaves the enclosing
    function, whose return type [Result<R, E'>] is built from the error by
    its constructor. *)
Definition TRY {S T E R E' : Type} `{ErrorType E} `{ErrorInto E E'}
    (stmt : M S (Result.t T E)) (rest : T -> M S (Result.t R E'))
    : M S (Result.t R E') :=
  let* result := stmt in
  if negb (Result.OK result)
  then ret (Result.from_error (Result.Error result))
  else let* v := lift (Result.Value result) in rest v.

(** The member functions that the expansion of [TRY] calls on its operand. *)
Definition TRY_uses : list string := ["OK"; "Error"; "Value"].

(** ** The C library, as far as the demonstration code uses it *)

(** Values of <errno.h> on Linux. *)
Definition ENOENT : Z := 2.
Definition EEXIST : Z := 17.
Definition EINVAL : Z := 22.
Definition ERANGE : Z := 34.

(** The global state of the demonstration code: [errno], and a ghost log of
    the calls made so far (most recent first), which no function reads. *)
Inductive Call : Type :=
| CallOpenFile (name : string)
| CallRead (name : string)
| CallParseInt (s : string).

Record World : Type := mkWorld { errno : Z; calls : list Call }.

Definition get_errno : M World Z := fun w => Normal (errno w, w).
Definition set_errno (e : Z) : M World unit :=
  fun w => Normal (tt, mkWorld e (calls w)).
Definition log (c : Call) : M World unit :=
  fun w => Normal (tt, mkWorld (errno w) (c :: calls w)).

Definition NUL : ascii := Ascii.zero.

(** [s.c_str()] as a C string: the characters before the first NUL. *)
Fixpoint c_str (s : string) : string :=
  match s with
  | EmptyString => EmptyString
  | String c s' => if Ascii.eqb c NUL then EmptyString else String c (c_str s')
  end.

(** [*end] for [end] at offset [i] of the C string [s]. *)
Definition char_at (s : string) (i : nat) : ascii :=
  match String.get i s with
  | Some c => c
  | None => NUL
  end.

Definition isspace (c : ascii) : bool :=
  let n := N_of_ascii c in
  (n =? 32)%N || ((9 <=? n)%N && (n <=? 13)%N).

(** The value of a character as a digit of some base up to 36. *)
Definition digit_value (c : ascii) : option Z :=
  let n := Z.of_N (N_of_ascii c) in
  if (48 <=? n) && (n <=? 57) then Some (n - 48)
  else if (97 <=? n) && (n <=? 122) then Some (n - 97 + 10)
  else if (65 <=? n) && (n <=? 90) then Some (n - 65 + 10)
  else None.

Definition is_digit (base : Z) (c : ascii) : bool :=
  match digit_value c with
  | Some d => d <? base
  | None => false
  end.

Fixpoint skip_spaces (s : string) : nat * string :=
  match s with
  | String c s' =>
      if isspace c then let '(n, r) := skip_spaces s' in (S n, r) else (O, s)
  | EmptyString => (O, s)
  end.

(** The longest prefix of digits of [base]: its value and its length. *)
Fixpoint digits (base : Z) (s : string) (acc : Z) (len : nat) : Z * nat :=
  match s with
  | String c s' =>
      match digit_value c with
      | Some d => if d <? base then digits base s' (acc * base + d) (S len)
                  else (acc, len)
      | None => (acc, len)
      end
  | EmptyString => (acc, len)
  end.

(** [strtol(nptr, &end, base)] after ISO C 7.22.1.4, with a 64-bit [long]:
    white space, an optional sign, an optional [0x] when the base is 0 or 16,
    then the digits.  Yields the value and the offset of [end] in [nptr];
    without any digit the value is 0 and [end] is [nptr]; a value out of
    range is clamped and [errno] becomes [ERANGE]. *)
Definition strtol (nptr : string) (base : Z) : M World (Z * nat) :=
  if negb ((base =? 0) || ((2 <=? base) && (base <=? 36)))
  then run set_errno EINVAL in ret (0, O)
  else
    let '(nspace, s1) := skip_spaces nptr in
    let '(negative, nsign, s2) :=
      match s1 with
      | String "-" r => (true, 1%nat, r)
      | String "+" r => (false, 1%nat, r)
      | _ => (false, O, s1)
      end in
    let '(base', nprefix, s3) :=
      match s2 with
      | String "0" (String x (String h r)) =>
          if ((base =? 0) || (base =? 16))
             && (Ascii.eqb x "x" || Ascii.eqb x "X") && is_digit 16 h
          then (16, 2%nat, String h r)
          else if base =? 0 then (8, O, s2) else (base, O, s2)
      | String "0" _ => if base =? 0 then (8, O, s2) else (base, O, s2)
      | _ => if base =? 0 then (10, O, s2) else (base, O, s2)
      end in
    let '(magnitude, ndigits) := digits base' s3 0 O in
    match ndigits with
    | O => ret (0, O)
    | _ =>
        let n := if negative then - magnitude else magnitude in
        let end_ := (nspace + nsign + nprefix + ndigits)%nat in
        if n >? LONG_MAX then run set_errno ERANGE in ret (LONG_MAX, end_)
        else if n <? LONG_MIN then run set_errno ERANGE in ret (LONG_MIN, end_)
        else ret (n, end_)
    end.

(** ** The demonstration code (lines 240-309) *)

(** [enum class ErrnoType {};] *)
Inductive ErrnoType : Type := ErrnoType_of (n : Z).

#[export] Instance ErrnoType_EnumClass : EnumClass ErrnoType :=
  {| to_int := fun c => match c with ErrnoType_of n => n end;
     from_int := ErrnoType_of;
     to_from_int := fun n => eq_refl |}.

(** [using ErrnoError = TypedError<ErrnoType>;] *)
Abbreviation ErrnoError := (TypedError.t ErrnoType).

(** [enum class DnsErrorCode {};] *)
Inductive DnsErrorCode : Type := DnsErrorCode_of (n : Z).

#[export] Instance DnsErrorCode_EnumClass : EnumClass DnsErrorCode :=
  {| to_int := fun c => match c with DnsErrorCode_of n => n end;
     from_int := DnsErrorCode_of;
     to_from_int := fun n => eq_refl |}.

Abbreviation DnsError := (TypedError.t DnsErrorCode).

(** [static const std::map<std::string, std::string> file_content] *)
Definition file_content : gmap string string :=
  list_to_map [("number", "100"); ("bad", "bad"); ("empty", "")].

(** [class File] *)
Module File.
Record t : Type := mk { name_ : string }.

(** [Result<std::string, ErrnoError> Read() const
      { return file_content.at(name_); }]: [at] throws on a missing key. *)
Definition Read (f : t) : M World (Result.t string ErrnoError) :=
  run log (CallRead (name_ f)) in
  match file_content !! name_ f with
  | Some content => ret (Result.of_value content)
  | None => lift Panic
  end.
End File.

Section Demo.
(** What [__builtin_FILE()] expands to in this translation unit. *)
Variable builtin_FILE : string.

(** [Result<File, ErrnoError> OpenFile(const std::string& name)] *)
Definition OpenFile (name : string) : M World (Result.t File.t ErrnoError) :=
  run log (CallOpenFile name) in
  if negb (bool_decide (file_content !! name = None))
  then ret (Result.of_value (File.mk name))
  else ret (Result.of_error
              (TypedError.make (from_int EEXIST) builtin_FILE 266 "OpenFile")).

(** [Result<int, ErrnoError> ParseInt(const std::string& s)].  The inner
    computation yields the result of the [return] inside the [if], when it
    is reached. *)
Definition ParseInt (s : string) : M World (Result.t Z ErrnoError) :=
  run log (CallParseInt s) in
  run set_errno 0 in
  let* (n, end_) := strtol (c_str s) 0 in
  let* e := get_errno in
  let* returned :=
    (if e =? 0 then
       if negb (Ascii.eqb (char_at (c_str s) end_) NUL)
       then run set_errno EINVAL in ret None
       else if (n >? INT_MAX) || (n <? INT_MIN)
       then run set_errno ERANGE in ret None
       else ret (Some (Result.of_value (static_cast_int n)))
     else ret None) in
  match returned with
  | Some r => ret r
  | None =>
      let* e := get_errno in
      ret (Result.of_error
             (TypedError.make (from_int e) builtin_FILE 282 "ParseInt"))
  end.

(** [Result<int> GetIntFromFile(const std::string& filename)] *)
Definition GetIntFromFile (filename : string)
    : M World (Result.t Z GenericError.t) :=
  TRY (OpenFile filename) (fun f =>
  TRY (File.Read f) (fun s =>
  TRY (ParseInt s) (fun n =>
  ret (Result.of_value n)))).

(** [int ParseInt(const std::string& str, int default_value)] *)
Definition ParseInt_or (str : string) (default_value : Z) : M World Z :=
  let* r := ParseInt str in lift (Result.ValueOr r default_value).

(** [Result<void> FlushAll() { return OK(); }] *)
Definition FlushAll : M World (ResultVoid.t GenericError.t) := ret OK.

(** [std::cout << n] for an [int]: the decimal digits. *)
Definition show_int (n : Z) : string := NilZero.string_of_int (Z.to_int n).

Definition newline : string := String (ascii_of_nat 10) EmptyString.

(** [int main()] (lines 311-323): yields what it writes to [std::cout]. *)
Definition main : M World string :=
  let* r := GetIntFromFile "bad" in
  let* out1 :=
    (if operator_bool (Result.Error r)
     then
       let* file := lift (File (Result.Error r)) in
       let* line := lift (Line (Result.Error r)) in
       let* function := lift (Function (Result.Error r)) in
       ret ("In " ++ file ++ ":" ++ show_int line ++ ":" ++ function
            ++ " Code: " ++ show_int (GenericError.Code (Result.Error r))
            ++ newline)
     else ret "") in
  let* v := lift (Result.ValueOr r (-1)) in
  let out2 := show_int v ++ newline in
  let* r2 := GetIntFromFile "number" in
  let* v2 := lift (Result.Value r2) in
  let out3 := show_int v2 ++ newline in
  let* flushed := FlushAll in
  run ResultVoid.IgnoreError flushed in
  ret (out1 ++ out2 ++ out3).
End Demo.

(** ** Auxiliary definitions for the statements below *)

(** Ghost instrumentation: [counted stmt] behaves as [stmt] and counts, in
    an extra component of the state, how many times it is evaluated. *)
Definition counted {S A : Type} (stmt : M S A) : M (S * nat) A :=
  fun sn =>
    match stmt (fst sn) with
    | Normal (a, s') => Normal (a, (s', Datatypes.S (snd sn)))
    | Panic => Panic
    | Undefined => Undefined
    end.

(** [std::shared_ptr::operator->] of libstdc++: the debug build of the
    library ([_GLIBCXX_DEBUG] with [_GLIBCXX_DEBUG_PEDANTIC]) asserts that
    the pointer is not null, the other builds dereference it unchecked. *)
Definition shared_ptr_arrow {A : Type} (debug : bool) (p : option A)
    : Outcome A :=
  match p with
  | Some r => Normal r
  | None => if debug then Panic else Undefined
  end.

(** [File()], [Line()] and [Function()] of [BaseError], which are
    [error_->File()] and so on, in a given build of the library. *)
Definition File_in {E : Type} `{ErrorType E} (debug : bool) (e : E)
    : Outcome string :=
  match shared_ptr_arrow debug (Record_ e) with
  | Normal r => Normal (ErrorImpl.File r)
  | Panic => Panic
  | Undefined => Undefined
  end.

Definition Line_in {E : Type} `{ErrorType E} (debug : bool) (e : E)
    : Outcome Z :=
  match shared_ptr_arrow debug (Record_ e) with
  | Normal r => Normal (ErrorImpl.Line r)
  | Panic => Panic
  | Undefined => Undefined
  end.

Definition Function_in {E : Type} `{ErrorType E} (debug : bool) (e : E)
    : Outcome string :=
  match shared_ptr_arrow debug (Record_ e) with
  | Normal r => Normal (ErrorImpl.Function r)
  | Panic => Panic
  | Undefined => Undefined
  end.

(** The state in which a [Result] is meant to be (lines 9 and 180 of the
    source): it is OK exactly when its value was constructed. *)
Definition consistent {T E : Type} `{ErrorType E} (r : Result.t T E) : Prop :=
  Result.OK r = match Result.value_ r with Some _ => true | None => false end.

(** [Message()] as the specification words it, to compare with the code: the
    string of the registry for the error's domain when there is one, the
    code in decimal otherwise. *)
Definition Message_as_specified {E : Type} `{ErrorType E}
    (registry : option (Z -> string)) (e : E) : string :=
  match registry with
  | Some to_string => to_string (RawCode e)
  | None => NilZero.string_of_int (Z.to_int (RawCode e))
  end.

(** * Properties *)

(** ** Truthiness of error values *)

Section Truthiness.
Context {E : Type} `{ErrorType E}.

Lemma operator_not_negb (e : E) : operator_not e = negb (operator_bool e).
Proof. reflexivity. Qed.

Lemma operator_bool_true (e : E) :
  operator_bool e = true <->
  exists r, Record_ e = Some r /\ ErrorImpl.Code r <> 0.
Proof.
  unfold operator_bool, BaseError.operator_bool, Record_.
  destruct (BaseError.error_ (to_base e)) as [r|]; split.
  - intros Hb. exists r. split; [reflexivity|].
    apply negb_true_iff in Hb. now apply Z.eqb_neq.
  - intros (r' & Hr & Hc). injection Hr as ->.
    apply negb_true_iff. now apply Z.eqb_neq.
  - discriminate.
  - intros (r' & Hr & _). discriminate.
Qed.

Lemma empty_falsy (e : E) :
  Record_ e = None -> operator_bool e = false /\ operator_not e = true.
Proof.
  unfold operator_not, BaseError.operator_not, operator_bool,
    BaseError.operator_bool, Record_.
  intros ->. split; reflexivity.
Qed.

Lemma default_error_empty : Record_ (default_error : E) = None.
Proof. unfold Record_. now rewrite to_base_default. Qed.

Lemma truthy_not (e : E) : operator_bool e = true -> operator_not e = false.
Proof. rewrite operator_not_negb. now intros ->. Qed.

Lemma falsy_not (e : E) : operator_bool e = false -> operator_not e = true.
Proof. rewrite operator_not_negb. now intros ->. Qed.
End Truthiness.

(** C3.  For every error wrapper [e] (any class derived from [BaseError]:
    [TypedError<Code>] and [GenericError] are the two instances): a truthy
    [e] has [!e == false]; an empty [e], and the default-constructed one in
    particular, has [bool(e) == false] and [!e == true]; and [bool(e)] is
    true exactly when the wrapped record exists and its code is not 0. *)
Theorem C3_truthiness {E : Type} `{ErrorType E} (e : E) :
  (operator_bool e = true -> operator_not e = false) /\
  (Record_ e = None -> operator_bool e = false /\ operator_not e = true) /\
  (operator_bool (default_error : E) = false /\
   operator_not (default_error : E) = true) /\
  (operator_bool e = true <->
   exists r, Record_ e = Some r /\ ErrorImpl.Code r <> 0).
Proof.
  split; [apply truthy_not|].
  split; [apply empty_falsy|].
  split; [apply empty_falsy, default_error_empty|].
  apply operator_bool_true.
Qed.

(** The two instances of C3, on concrete wrappers. *)
Lemma C3_truthiness_witness :
  (operator_bool (TypedError.make (ErrnoType_of 22) "result.cpp" 282 "ParseInt")
     = true /\
   operator_not (TypedError.make (ErrnoType_of 22) "result.cpp" 282 "ParseInt")
     = false) /\
  (operator_bool (GenericError.default) = false /\
   operator_not (GenericError.default) = true).
Proof.
  split.
  - split; [reflexivity|].
    apply (C3_truthiness
             (TypedError.make (ErrnoType_of 22) "result.cpp" 282 "ParseInt")).
    reflexivity.
  - apply (C3_truthiness GenericError.default). reflexivity.
Defined.

Example TypedError_default_falsy :
  operator_bool (@TypedError.default DnsErrorCode) = false /\
  operator_not (@TypedError.default DnsErrorCode) = true.
Proof. split; reflexivity. Qed.

Example zero_code_falsy :
  operator_bool (GenericError.make 0 "result.cpp" 1 "main") = false.
Proof. reflexivity. Qed.

(** ** Erasure to GenericError *)

Section Erasure.
Context {E : Type} `{ErrorType E}.

Lemma from_Record (e : E) : Record_ (GenericError.from e) = Record_ e.
Proof. reflexivity. Qed.

Lemma from_operator_bool (e : E) :
  operator_bool (GenericError.from e) = operator_bool e.
Proof. reflexivity. Qed.

Lemma from_location (e : E) :
  File (GenericError.from e) = File e /\
  Line (GenericError.from e) = Line e /\
  Function (GenericError.from e) = Function e.
Proof. repeat split. Qed.
End Erasure.

(** C5.  Erasing a [TypedError<C>] to [GenericError] keeps the data:
    [GenericError(e).Code() == (int)e.Code()], the wrapped record is the same
    one, hence so are the file, line and function and the causing record. *)
Theorem C5_erasure_keeps_data {C : Type} `{EnumClass C} (e : TypedError.t C) :
  GenericError.Code (GenericError.from e) = to_int (TypedError.Code e) /\
  Record_ (GenericError.from e) = Record_ e /\
  File (GenericError.from e) = File e /\
  Line (GenericError.from e) = Line e /\
  Function (GenericError.from e) = Function e /\
  Cause (GenericError.from e) = Cause e.
Proof.
  split.
  - unfold GenericError.Code, TypedError.Code. now rewrite to_from_int.
  - repeat split.
Qed.

Example erasure_EINVAL :
  GenericError.Code
    (GenericError.from
       (TypedError.make (ErrnoType_of EINVAL) "result.cpp" 282 "ParseInt"))
  = 22.
Proof. reflexivity. Qed.

(** ** Result *)

Section ResultFacts.
Context {T E : Type} `{ErrorType E}.

Lemma OK_of_value (v : T) : Result.OK (Result.of_value (E:=E) v) = true.
Proof.
  unfold Result.OK, Result.of_value. simpl.
  apply falsy_not, empty_falsy, default_error_empty.
Qed.

Lemma Value_of_value (v : T) :
  Result.Value (Result.of_value (E:=E) v) = Normal v.
Proof. reflexivity. Qed.

Lemma OK_error_ (r : Result.t T E) :
  Result.OK r = negb (operator_bool (Result.error_ r)).
Proof. reflexivity. Qed.

Lemma OK_ignores_value (o o' : option T) (e : E) :
  Result.OK (Result.mk o e) = Result.OK (Result.mk o' e).
Proof. reflexivity. Qed.

Lemma Value_ignores_error (o : option T) (e e' : E) :
  Result.Value (Result.mk o e) = Result.Value (Result.mk o e').
Proof. reflexivity. Qed.

Lemma from_error_same (e : E) :
  Result.from_error (T:=T) e = Result.of_error e.
Proof. reflexivity. Qed.

Lemma copy_of_value (v : T) :
  Result.copy (Result.of_value (E:=E) v) = Normal (Result.of_value v).
Proof.
  unfold Result.copy, Result.of_value. simpl.
  now rewrite (falsy_not _ (proj1 (empty_falsy _ default_error_empty))).
Qed.

Lemma copy_of_error (e : E) :
  operator_bool e = true ->
  Result.copy (Result.of_error (T:=T) e) = Normal (Result.of_error e).
Proof.
  intros He. unfold Result.copy, Result.of_error. simpl.
  now rewrite (truthy_not e He).
Qed.

Lemma copy_of_falsy_error (e : E) :
  operator_bool e = false ->
  Result.copy (Result.of_error (T:=T) e) = Undefined.
Proof.
  intros He. unfold Result.copy, Result.of_error. simpl.
  now rewrite (falsy_not e He).
Qed.
End ResultFacts.

(** C2.  A [Result] built from a truthy [error] is not OK, and [Error()]
    gives back [error] itself: same code, same file, line and function, same
    causing record.  When the result's error type is [GenericError] and
    [error] is of another error type, the converting constructor is used and
    the same holds of the erased error. *)
Theorem C2_error_roundtrip {T E : Type} `{ErrorType E} (error : E) :
  operator_bool error = true ->
  (Result.OK (Result.of_error (T:=T) error) = false /\
   Result.Error (Result.of_error (T:=T) error) = error /\
   RawCode (Result.Error (Result.of_error (T:=T) error)) = RawCode error /\
   File (Result.Error (Result.of_error (T:=T) error)) = File error /\
   Line (Result.Error (Result.of_error (T:=T) error)) = Line error /\
   Function (Result.Error (Result.of_error (T:=T) error)) = Function error /\
   Cause (Result.Error (Result.of_error (T:=T) error)) = Cause error) /\
  (Result.OK (Result.from_error (T:=T) (E:=GenericError.t) error) = false /\
   GenericError.Code
     (Result.Error (Result.from_error (T:=T) (E:=GenericError.t) error))
     = RawCode error /\
   Record_ (Result.Error (Result.from_error (T:=T) (E:=GenericError.t) error))
     = Record_ error).
Proof.
  intros Htruthy. split.
  - split; [|repeat split].
    unfold Result.OK, Result.of_error. simpl. now apply truthy_not.
  - split; [|split; reflexivity].
    unfold Result.OK, Result.from_error. simpl.
    apply truthy_not. now rewrite <- (from_operator_bool error) in Htruthy.
Qed.

Lemma C2_error_roundtrip_witness :
  operator_bool (TypedError.make (ErrnoType_of EINVAL) "result.cpp" 282 "ParseInt")
    = true /\
  Result.Error
    (Result.of_error (T:=Z)
       (TypedError.make (ErrnoType_of EINVAL) "result.cpp" 282 "ParseInt"))
  = TypedError.make (ErrnoType_of EINVAL) "result.cpp" 282 "ParseInt".
Proof.
  split; [reflexivity|].
  apply (C2_error_roundtrip (T:=Z)
           (TypedError.make (ErrnoType_of EINVAL) "result.cpp" 282 "ParseInt")).
  reflexivity.
Defined.

(** C10.  [OK()] is [!error_] and nothing else: it does not look at the
    value storage.  So a [Result] built from a falsy error is OK although no
    value was stored, and [Error()] gives that falsy error back. *)
Theorem C10_falsy_error_is_OK {T E : Type} `{ErrorType E} (error : E) :
  operator_bool error = false ->
  Result.OK (Result.of_error (T:=T) error) = true /\
  Result.value_ (Result.of_error (T:=T) error) = None /\
  Result.Error (Result.of_error (T:=T) error) = error /\
  operator_bool (Result.Error (Result.of_error (T:=T) error)) = false /\
  (forall (r : Result.t T E),
     Result.OK r = negb (operator_bool (Result.error_ r))) /\
  (forall (o o' : option T) (e : E),
     Result.OK (Result.mk o e) = Result.OK (Result.mk o' e)).
Proof.
  intros Hfalsy.
  split; [unfold Result.OK, Result.of_error; simpl; now apply falsy_not|].
  split; [reflexivity|].
  split; [reflexivity|].
  split; [exact Hfalsy|].
  split; [apply OK_error_|apply OK_ignores_value].
Qed.

Lemma C10_falsy_error_is_OK_witness :
  operator_bool (@TypedError.default ErrnoType) = false /\
  Result.OK (Result.of_error (T:=Z) (@TypedError.default ErrnoType)) = true /\
  Result.value_ (Result.of_error (T:=Z) (@TypedError.default ErrnoType)) = None.
Proof.
  split; [reflexivity|].
  pose proof (C10_falsy_error_is_OK (T:=Z) (@TypedError.default ErrnoType)
                eq_refl) as (Hok & Hval & _).
  split; [exact Hok|exact Hval].
Defined.

(** The same through the converting constructor, and for a record whose
    code is 0. *)
Example falsy_error_converted :
  Result.OK (Result.from_error (T:=Z) (E:=GenericError.t)
               (@TypedError.default ErrnoType)) = true /\
  Result.Value (Result.from_error (T:=Z) (E:=GenericError.t)
                  (@TypedError.default ErrnoType)) = Undefined.
Proof. split; reflexivity. Qed.

Example zero_code_error_is_OK :
  Result.OK (Result.of_error (T:=Z)
               (TypedError.make (ErrnoType_of 0) "result.cpp" 282 "ParseInt"))
  = true.
Proof. reflexivity. Qed.

Section ValueOrFacts.
Context {T E : Type} `{ErrorType E}.

Lemma ValueOr_of_value (v d : T) :
  Result.ValueOr (Result.of_value (E:=E) v) d = Normal v.
Proof. unfold Result.ValueOr. now rewrite OK_of_value. Qed.

Lemma ValueOr_of_error (e : E) (d : T) :
  operator_bool e = true -> Result.ValueOr (Result.of_error e) d = Normal d.
Proof.
  intros He. unfold Result.ValueOr, Result.OK, Result.of_error. simpl.
  now rewrite (truthy_not e He).
Qed.
End ValueOrFacts.

(** C6, as the claim states it, fails: a [Result] built from a
    default-constructed error is OK but holds no value, and [ValueOr] reads
    its value storage, which was never constructed, instead of returning a
    held value or the default. *)
Lemma C6_counterexample :
  Result.OK (Result.of_error (T:=Z) (@TypedError.default ErrnoType)) = true /\
  Result.value_ (Result.of_error (T:=Z) (@TypedError.default ErrnoType))
    = None /\
  Result.ValueOr (Result.of_error (T:=Z) (@TypedError.default ErrnoType)) (-1)
    = Undefined.
Proof. repeat split. Qed.

(** C6, amended.  On a consistent [Result] (one built from a value, or from
    a truthy error), [ValueOr(d)] returns normally: the held value when the
    result is OK and exactly [d] otherwise.  On every [Result] that is not
    OK it returns exactly [d].  On a [Result] built from a falsy error it is
    undefined. *)
Theorem C6_ValueOr {T E : Type} `{ErrorType E} (r : Result.t T E) (d : T) :
  (consistent r ->
   (Result.OK r = true ->
    exists v, Result.value_ r = Some v /\ Result.ValueOr r d = Normal v) /\
   (Result.OK r = false -> Result.ValueOr r d = Normal d)) /\
  (Result.OK r = false -> Result.ValueOr r d = Normal d) /\
  (forall v : T, Result.ValueOr (Result.of_value (E:=E) v) d = Normal v) /\
  (forall e : E, operator_bool e = true ->
     Result.ValueOr (Result.of_error e) d = Normal d) /\
  (forall e : E, operator_bool e = false ->
     Result.ValueOr (Result.of_error e) d = Undefined).
Proof.
  assert (Hnot_ok : Result.OK r = false -> Result.ValueOr r d = Normal d).
  { unfold Result.ValueOr. now intros ->. }
  split; [|split; [exact Hnot_ok|split; [|split]]].
  - intros Hr. split; [|exact Hnot_ok].
    intros Hok. unfold consistent in Hr. rewrite Hok in Hr.
    unfold Result.ValueOr, Result.Value. rewrite Hok.
    destruct (Result.value_ r) as [v|]; [|discriminate].
    exists v. split; reflexivity.
  - intros v. apply ValueOr_of_value.
  - intros e He. now apply ValueOr_of_error.
  - intros e He. unfold Result.ValueOr, Result.OK, Result.of_error. simpl.
    now rewrite (falsy_not e He).
Qed.

Lemma C6_ValueOr_witness :
  (exists v,
     Result.value_ (Result.of_value (E:=ErrnoError) 100) = Some v /\
     Result.ValueOr (Result.of_value (E:=ErrnoError) 100) (-1) = Normal v) /\
  Result.ValueOr
    (Result.of_error (T:=Z)
       (TypedError.make (ErrnoType_of EINVAL) "result.cpp" 282 "ParseInt"))
    (-1) = Normal (-1).
Proof.
  split.
  - exact (proj1 (proj1 (C6_ValueOr (Result.of_value (E:=ErrnoError) 100)
                           (-1)) eq_refl) eq_refl).
  - exact (proj2 (proj1 (C6_ValueOr
                           (Result.of_error (T:=Z)
                              (TypedError.make (ErrnoType_of EINVAL)
                                 "result.cpp" 282 "ParseInt")) (-1))
                    eq_refl) eq_refl).
Defined.





(** ** Result<void, E> *)

(** The two public member functions cannot tell two failed results apart:
    the stored error is not reachable through them. *)
Lemma ResultVoid_error_not_observable :
  exists r1 r2 : ResultVoid.t GenericError.t,
    ResultVoid.OK r1 = ResultVoid.OK r2 /\
    (forall (S : Type) (s : S),
       ResultVoid.IgnoreError r1 s = ResultVoid.IgnoreError r2 s) /\
    ResultVoid.error_ r1 <> ResultVoid.error_ r2.
Proof.
  exists (ResultVoid.of_error (GenericError.make 1 "result.cpp" 1 "main")).
  exists (ResultVoid.of_error (GenericError.make 2 "result.cpp" 1 "main")).
  split; [reflexivity|]. split; [reflexivity|]. discriminate.
Qed.

(** C8.  [Result<void, E>] stores its error but has no [Error()], which
    the general [Result<T, E>] has: through its member functions, [OK] and
    [IgnoreError], two results that failed with different errors cannot be
    told apart.  [IgnoreError] itself does nothing: whatever the result and
    the state, it returns normally with the state unchanged, and its outcome
    does not depend on the result, so that it does not inspect it. *)
Theorem C8_void_result :
  In "Error" Result.public_members /\
  ~ In "Error" ResultVoid.public_members /\
  (exists r1 r2 : ResultVoid.t GenericError.t,
     ResultVoid.error_ r1 <> ResultVoid.error_ r2 /\
     ResultVoid.OK r1 = ResultVoid.OK r2 /\
     (forall (S : Type) (s : S),
        ResultVoid.IgnoreError r1 s = ResultVoid.IgnoreError r2 s)) /\
  (forall (E : Type) (HE : ErrorType E) (S : Type) (r : ResultVoid.t E) (s : S),
     ResultVoid.IgnoreError r s = Normal (tt, s)) /\
  (forall (E : Type) (HE : ErrorType E) (S : Type) (r r' : ResultVoid.t E)
          (s : S),
     ResultVoid.IgnoreError r s = ResultVoid.IgnoreError r' s).
Proof.
  split; [unfold Result.public_members; simpl; tauto|].
  split.
  - unfold ResultVoid.public_members. simpl.
    intros [Heq|[Heq|[]]]; discriminate.
  - split; [|split; reflexivity].
    destruct ResultVoid_error_not_observable as (r1 & r2 & Hok & Hig & Hne).
    exists r1, r2. auto.
Qed.

(** [FlushAll().IgnoreError();] in [main] leaves the world as it is. *)
Example FlushAll_IgnoreError (w : World) :
  (let* r := FlushAll in ResultVoid.IgnoreError r) w = Normal (tt, w).
Proof. reflexivity. Qed.

Example OK_is_OK : ResultVoid.OK OK = true.
Proof. reflexivity. Qed.

(** ** TRY *)

Section TRYFacts.
Context {S T E R E' : Type} `{ErrorType E} `{ErrorInto E E'}.
Variable stmt : M S (Result.t T E).
Variable rest : T -> M S (Result.t R E').

(** A failed operand: the enclosing function returns the error, converted,
    in the state the single evaluation of the operand left; [rest] is not
    run. *)
Lemma TRY_error_returns (s s1 : S) (result : Result.t T E) :
  stmt s = Normal (result, s1) ->
  Result.OK result = false ->
  TRY stmt rest s = Normal (Result.from_error (Result.Error result), s1).
Proof.
  intros Hstmt Hok. unfold TRY, bind. rewrite Hstmt, Hok. reflexivity.
Qed.

(** A successful operand: the enclosing function goes on with the value. *)
Lemma TRY_ok_continues (s s1 : S) (result : Result.t T E) (v : T) :
  stmt s = Normal (result, s1) ->
  Result.OK result = true ->
  Result.value_ result = Some v ->
  TRY stmt rest s = rest v s1.
Proof.
  intros Hstmt Hok Hv. unfold TRY, bind, lift, Result.Value.
  rewrite Hstmt, Hok, Hv. reflexivity.
Qed.

(** An operand that is OK without a value (see C10): the value storage is
    read all the same. *)
Lemma TRY_ok_without_value (s s1 : S) (result : Result.t T E) :
  stmt s = Normal (result, s1) ->
  Result.OK result = true ->
  Result.value_ result = None ->
  TRY stmt rest s = Undefined.
Proof.
  intros Hstmt Hok Hv. unfold TRY, bind, lift, Result.Value.
  rewrite Hstmt, Hok, Hv. reflexivity.
Qed.

Lemma TRY_panic (s : S) : stmt s = Panic -> TRY stmt rest s = Panic.
Proof. intros Hstmt. unfold TRY, bind. now rewrite Hstmt. Qed.
End TRYFacts.

(** The operand is evaluated once, whichever way [TRY] leaves. *)
Lemma TRY_evaluates_once {S T E R E' : Type} `{ErrorType E} `{ErrorInto E E'}
    (stmt : M S (Result.t T E)) (rest : T -> M (S * nat) (Result.t R E'))
    (s s1 : S) (n : nat) (result : Result.t T E) :
  stmt s = Normal (result, s1) ->
  (Result.OK result = false ->
   TRY (counted stmt) rest (s, n)
   = Normal (Result.from_error (Result.Error result), (s1, Datatypes.S n))) /\
  (forall v, Result.OK result = true -> Result.value_ result = Some v ->
   TRY (counted stmt) rest (s, n) = rest v (s1, Datatypes.S n)).
Proof.
  intros Hstmt.
  assert (Hc : counted stmt (s, n) = Normal (result, (s1, Datatypes.S n))).
  { unfold counted. simpl. now rewrite Hstmt. }
  split.
  - intros Hok. now apply TRY_error_returns.
  - intros v Hok Hv. now apply TRY_ok_continues with (result := result).
Qed.

(** The error that [TRY] returns wraps the record of the operand's error,
    for both conversions that exist. *)
Lemma error_into_same_Record {E : Type} `{ErrorType E} (e : E) :
  Record_ (error_into (E:=E) e) = Record_ e.
Proof. reflexivity. Qed.

Lemma error_into_generic_Record {E : Type} `{ErrorType E} (e : E) :
  Record_ (error_into (E:=GenericError.t) e) = Record_ e.
Proof. reflexivity. Qed.


(** ** Message *)

(** C9.  [Message()] is the empty string for every error: the code does not
    consult a registry nor print the code.  For the error of code 22 and no
    registry, the specified message is "22". *)
Theorem C9_Message_is_empty :
  (forall (E : Type) (HE : ErrorType E) (e : E), Message e = "") /\
  Message (GenericError.make 22 "result.cpp" 282 "ParseInt") = "" /\
  Message_as_specified None (GenericError.make 22 "result.cpp" 282 "ParseInt")
    = "22" /\
  Message (GenericError.make 22 "result.cpp" 282 "ParseInt")
    <> Message_as_specified None
         (GenericError.make 22 "result.cpp" 282 "ParseInt").
Proof.
  split; [reflexivity|]. split; [reflexivity|]. split; [reflexivity|].
  discriminate.
Qed.

(** ** The demonstration code *)

Example strtol_decimal (w : World) : strtol "100" 0 w = Normal ((100, 3%nat), w).
Proof. reflexivity. Qed.

Example strtol_no_digits (w : World) : strtol "bad" 0 w = Normal ((0, O), w).
Proof. reflexivity. Qed.

Example strtol_hex_signed (w : World) :
  strtol "  -0x1Fz" 0 w = Normal ((-31, 7%nat), w).
Proof. reflexivity. Qed.

Example strtol_octal (w : World) : strtol "017" 0 w = Normal ((15, 3%nat), w).
Proof. reflexivity. Qed.

Example strtol_0x_alone (w : World) : strtol "0xg" 0 w = Normal ((0, 1%nat), w).
Proof. reflexivity. Qed.

Example strtol_overflow (w : World) :
  strtol "9223372036854775808" 0 w
  = Normal ((LONG_MAX, 19%nat), mkWorld ERANGE (calls w)).
Proof. reflexivity. Qed.

Section DemoFacts.
Variable builtin_FILE : string.

Lemma OpenFile_found (name content : string) (w : World) :
  file_content !! name = Some content ->
  OpenFile builtin_FILE name w
  = Normal (Result.of_value (File.mk name),
            mkWorld (errno w) (CallOpenFile name :: calls w)).
Proof.
  intros Hfound. unfold OpenFile, bind, log. simpl.
  rewrite bool_decide_eq_false_2; [reflexivity|]. now rewrite Hfound.
Qed.

Lemma OpenFile_missing (name : string) (w : World) :
  file_content !! name = None ->
  OpenFile builtin_FILE name w
  = Normal (Result.of_error
              (TypedError.make (ErrnoType_of EEXIST) builtin_FILE 266 "OpenFile"),
            mkWorld (errno w) (CallOpenFile name :: calls w)).
Proof.
  intros Hmissing. unfold OpenFile, bind, log. simpl.
  rewrite bool_decide_eq_true_2; [reflexivity|assumption].
Qed.

(** A missing name stops [GetIntFromFile] at the lookup: neither [Read] nor
    [ParseInt] is called, and [errno] is not written. *)
Lemma GetIntFromFile_missing (name : string) (w : World) :
  file_content !! name = None ->
  GetIntFromFile builtin_FILE name w
  = Normal (Result.of_error
              (GenericError.make EEXIST builtin_FILE 266 "OpenFile"),
            mkWorld (errno w) (CallOpenFile name :: calls w)).
Proof.
  intros Hmissing. unfold GetIntFromFile.
  rewrite TRY_error_returns with (1 := OpenFile_missing name w Hmissing);
    reflexivity.
Qed.

Example ParseInt_100 (w : World) :
  ParseInt builtin_FILE "100" w
  = Normal (Result.of_value 100, mkWorld 0 (CallParseInt "100" :: calls w)).
Proof. reflexivity. Qed.

Example ParseInt_bad (w : World) :
  ParseInt builtin_FILE "bad" w
  = Normal (Result.of_error
              (TypedError.make (ErrnoType_of EINVAL) builtin_FILE 282 "ParseInt"),
            mkWorld EINVAL (CallParseInt "bad" :: calls w)).
Proof. reflexivity. Qed.

Example ParseInt_out_of_int_range (w : World) :
  ParseInt builtin_FILE "2147483648" w
  = Normal (Result.of_error
              (TypedError.make (ErrnoType_of ERANGE) builtin_FILE 282 "ParseInt"),
            mkWorld ERANGE (CallParseInt "2147483648" :: calls w)).
Proof. reflexivity. Qed.

Example ParseInt_or_bad (w : World) :
  ParseInt_or builtin_FILE "bad" (-1) w
  = Normal (-1, mkWorld EINVAL (CallParseInt "bad" :: calls w)).
Proof. reflexivity. Qed.

(** What [main] prints for [GetIntFromFile("bad")]. *)
Example main_bad (w : World) :
  exists r w',
    GetIntFromFile builtin_FILE "bad" w = Normal (r, w') /\
    operator_bool (Result.Error r) = true /\
    File (Result.Error r) = Normal builtin_FILE /\
    Line (Result.Error r) = Normal 282 /\
    Function (Result.Error r) = Normal "ParseInt" /\
    GenericError.Code (Result.Error r) = 22 /\
    Result.ValueOr r (-1) = Normal (-1).
Proof. eexists. eexists. split; [reflexivity|]. repeat split. Qed.

End DemoFacts.

(** C4.  The pipeline [GetIntFromFile]: the key "number" has content "100"
    and yields the integer 100; the key "bad" is found, and parsing its
    content "bad" fails with [EINVAL]; the key "missing" fails at the lookup,
    with no call of [Read] or [ParseInt] -- but the code of that error is
    [EEXIST] (file exists), not [ENOENT] (no such file). *)
Theorem C4_lookup_then_parse (builtin_FILE : string) (w : World) :
  (file_content !! "number" = Some "100" /\
   GetIntFromFile builtin_FILE "number" w
   = Normal (Result.of_value 100,
             mkWorld 0 (CallParseInt "100" :: CallRead "number"
                        :: CallOpenFile "number" :: calls w))) /\
  (OpenFile builtin_FILE "bad" w
   = Normal (Result.of_value (File.mk "bad"),
             mkWorld (errno w) (CallOpenFile "bad" :: calls w)) /\
   GetIntFromFile builtin_FILE "bad" w
   = Normal (Result.of_error
               (GenericError.make EINVAL builtin_FILE 282 "ParseInt"),
             mkWorld EINVAL (CallParseInt "bad" :: CallRead "bad"
                             :: CallOpenFile "bad" :: calls w))) /\
  (file_content !! "missing" = None /\
   GetIntFromFile builtin_FILE "missing" w
   = Normal (Result.of_error
               (GenericError.make EEXIST builtin_FILE 266 "OpenFile"),
             mkWorld (errno w) (CallOpenFile "missing" :: calls w))) /\
  EEXIST = 17 /\ ENOENT = 2 /\ EEXIST <> ENOENT.
Proof.
  split; [split; reflexivity|].
  split; [split; reflexivity|].
  split; [split; reflexivity|].
  split; [reflexivity|]. split; [reflexivity|]. discriminate.
Qed.

(** * Further properties of the code *)

(** ** Error wrappers: constructors and accessors *)

(** X1.  An error built from a code and a location gives back, through
    [Code()], [File()], [Line()] and [Function()], what the constructor
    received; it has no cause; and it is truthy exactly when the code is not
    0.  For [TypedError<C>] the code is compared as an [int]. *)
Theorem wrapper_constructor_accessors {C : Type} `{EnumClass C}
    (code : C) (n : Z) (file function : string) (line : Z) :
  (to_int (TypedError.Code (TypedError.make code file line function))
     = to_int code /\
   File (TypedError.make code file line function) = Normal file /\
   Line (TypedError.make code file line function) = Normal line /\
   Function (TypedError.make code file line function) = Normal function /\
   Cause (TypedError.make code file line function) = None /\
   operator_bool (TypedError.make code file line function)
     = negb (to_int code =? 0)) /\
  (GenericError.Code (GenericError.make n file line function) = n /\
   File (GenericError.make n file line function) = Normal file /\
   Line (GenericError.make n file line function) = Normal line /\
   Function (GenericError.make n file line function) = Normal function /\
   Cause (GenericError.make n file line function) = None /\
   operator_bool (GenericError.make n file line function) = negb (n =? 0)).
Proof.
  split; [split; [|repeat split]|repeat split].
  unfold TypedError.Code, TypedError.make. simpl. apply to_from_int.
Qed.

(** X2.  [RawCode()] answers 0 for an empty wrapper, so that for every error
    value truthiness and the code agree: an error is truthy exactly when its
    code is not 0, and the code of a default-constructed error is 0. *)
Theorem truthy_iff_code_nonzero :
  (forall (E : Type) (HE : ErrorType E) (e : E),
     operator_bool e = negb (RawCode e =? 0)) /\
  (forall e : GenericError.t,
     operator_bool e = negb (GenericError.Code e =? 0)) /\
  (forall (C : Type) (HC : EnumClass C) (e : TypedError.t C),
     operator_bool e = negb (to_int (TypedError.Code e) =? 0)) /\
  GenericError.Code GenericError.default = 0 /\
  (forall (C : Type) (HC : EnumClass C),
     to_int (TypedError.Code (@TypedError.default C)) = 0).
Proof.
  assert (Hgen : forall (E : Type) (HE : ErrorType E) (e : E),
             operator_bool e = negb (RawCode e =? 0)).
  { intros E HE e. unfold operator_bool, RawCode, BaseError.operator_bool,
      BaseError.RawCode.
    now destruct (BaseError.error_ (to_base e)). }
  split; [exact Hgen|]. split; [intros e; exact (Hgen _ _ e)|].
  split.
  - intros C HC e. unfold TypedError.Code. rewrite to_from_int.
    exact (Hgen _ _ e).
  - split; [reflexivity|]. intros C HC. unfold TypedError.Code.
    now rewrite to_from_int.
Qed.

(** ** Result: the value arm, copies and destruction *)

Section ResultInvariant.
Context {T E : Type} `{ErrorType E}.

Lemma consistent_of_value (v : T) : consistent (Result.of_value (E:=E) v).
Proof. unfold consistent. now rewrite OK_of_value. Qed.

Lemma consistent_of_error (e : E) :
  consistent (Result.of_error (T:=T) e) <-> operator_bool e = true.
Proof.
  unfold consistent, Result.OK, Result.of_error. simpl.
  rewrite operator_not_negb. destruct (operator_bool e); simpl; split; congruence.
Qed.

Lemma consistent_eq (r : Result.t T E) :
  consistent r -> Result.copy r = Normal r.
Proof.
  unfold consistent, Result.copy, Result.OK. destruct r as [o e]. simpl.
  intros Hr. rewrite Hr. now destruct o.
Qed.
End ResultInvariant.

(** X3.  A [Result] built from a value is OK, [Value()] and [ValueOr(d)]
    give that value back, [Error()] is a falsy error, and the result is
    consistent.  A [Result] built from an error is consistent exactly when
    the error is truthy. *)
Theorem Result_value_roundtrip {T E : Type} `{ErrorType E} (v d : T) :
  Result.OK (Result.of_value (E:=E) v) = true /\
  Result.Value (Result.of_value (E:=E) v) = Normal v /\
  Result.ValueOr (Result.of_value (E:=E) v) d = Normal v /\
  operator_bool (Result.Error (Result.of_value (E:=E) v)) = false /\
  consistent (Result.of_value (E:=E) v) /\
  (forall e : E,
     consistent (Result.of_error (T:=T) e) <-> operator_bool e = true).
Proof.
  split; [apply OK_of_value|]. split; [reflexivity|].
  split; [apply ValueOr_of_value|].
  split; [apply empty_falsy, default_error_empty|].
  split; [apply consistent_of_value|apply consistent_of_error].
Qed.

(** X4.  The copy constructor copies a consistent result into an equal
    one.  In general: from a source that is not OK it builds a result with
    the same error and no value; from a source that is OK with a value, a
    result equal to the source; from a source that is OK without a value
    (built from a falsy error) it copies a value that was never constructed,
    which is undefined.  Whatever it builds is consistent, with the error
    and [OK()] of the source. *)
Theorem Result_copy {T E : Type} `{ErrorType E} (r : Result.t T E) :
  (consistent r -> Result.copy r = Normal r) /\
  (Result.OK r = false ->
   Result.copy r = Normal (Result.mk None (Result.Error r))) /\
  (forall v, Result.OK r = true -> Result.value_ r = Some v ->
     Result.copy r = Normal r) /\
  (Result.OK r = true -> Result.value_ r = None ->
   Result.copy r = Undefined) /\
  (forall e : E, operator_bool e = false ->
     Result.copy (Result.of_error (T:=T) e) = Undefined) /\
  (forall r', Result.copy r = Normal r' ->
     consistent r' /\ Result.Error r' = Result.Error r /\
     Result.OK r' = Result.OK r /\ Result.copy r' = Normal r').
Proof.
  split; [apply consistent_eq|].
  unfold consistent, Result.copy, Result.OK, Result.Error.
  destruct r as [o e]. simpl.
  split; [now intros ->|]. split; [now intros v -> ->|].
  split; [now intros -> ->|]. split; [apply copy_of_falsy_error|].
  intros r'. destruct (operator_not e) eqn:Hnot.
  - destruct o as [v|]; [|discriminate]. intros [= <-]. simpl.
    rewrite Hnot. auto.
  - intros [= <-]. simpl. rewrite Hnot. auto.
Qed.

Lemma Result_copy_witness :
  Result.copy
    (Result.of_error (T:=Z)
       (TypedError.make (ErrnoType_of EINVAL) "result.cpp" 282 "ParseInt"))
  = Normal
      (Result.of_error
         (TypedError.make (ErrnoType_of EINVAL) "result.cpp" 282 "ParseInt")).
Proof.
  exact (proj1 (Result_copy
                  (Result.of_error (T:=Z)
                     (TypedError.make (ErrnoType_of EINVAL) "result.cpp" 282
                        "ParseInt")))
           eq_refl).
Defined.

(** X5.  The destructor of a consistent result destroys exactly the value
    that was constructed: the stored value when the result is OK, nothing
    when it holds an error.  On a result built from a falsy error it destroys
    a value that was never constructed.  It never panics. *)
Theorem Result_destructor {T E : Type} `{ErrorType E} (r : Result.t T E) :
  (consistent r -> Result.destructor r = Normal (Result.value_ r)) /\
  (forall v : T,
     Result.destructor (Result.of_value (E:=E) v) = Normal (Some v)) /\
  (forall e : E, operator_bool e = true ->
     Result.destructor (Result.of_error (T:=T) e) = Normal None) /\
  (forall e : E, operator_bool e = false ->
     Result.destructor (Result.of_error (T:=T) e) = Undefined) /\
  Result.destructor r <> Panic.
Proof.
  split; [|split; [|split; [|split]]].
  - unfold consistent, Result.destructor. intros ->.
    now destruct (Result.value_ r).
  - intros v. unfold Result.destructor. now rewrite OK_of_value.
  - intros e He. unfold Result.destructor, Result.OK, Result.of_error. simpl.
    now rewrite (truthy_not e He).
  - intros e He. unfold Result.destructor, Result.OK, Result.of_error. simpl.
    now rewrite (falsy_not e He).
  - unfold Result.destructor.
    destruct (Result.OK r); [destruct (Result.value_ r)|]; discriminate.
Qed.

Lemma Result_destructor_witness :
  Result.destructor (Result.of_value (E:=ErrnoError) 100) = Normal (Some 100).
Proof.
  exact (proj1 (Result_destructor (Result.of_value (E:=ErrnoError) 100))
           eq_refl).
Defined.

(** ** TRY: composition *)



(** ** The demonstration code: parsing *)

(** With base 0, [strtol] returns a [long] and at most sets [errno] to
    [ERANGE]. *)
Lemma strtol_0_spec (nptr : string) (w : World) :
  exists n end_,
    LONG_MIN <= n <= LONG_MAX /\
    (strtol nptr 0 w = Normal ((n, end_), w) \/
     strtol nptr 0 w = Normal ((n, end_), mkWorld ERANGE (calls w))).
Proof.
  unfold strtol. simpl negb. cbv iota.
  destruct (skip_spaces nptr) as [nspace s1].
  match goal with
  | |- context [match ?X with (_, _) => _ end] =>
      destruct X as [[negative nsign] s2]
  end.
  match goal with
  | |- context [match ?X with (_, _) => _ end] =>
      destruct X as [[base' nprefix] s3]
  end.
  destruct (digits base' s3 0 0) as [magnitude ndigits].
  destruct ndigits as [|k].
  - exists 0, O. split; [unfold LONG_MIN, LONG_MAX; lia|now left].
  - set (n := if negative then - magnitude else magnitude).
    destruct (n >? LONG_MAX) eqn:Hmax.
    + eexists. eexists. split; [|right; reflexivity].
      unfold LONG_MIN, LONG_MAX; lia.
    + destruct (n <? LONG_MIN) eqn:Hmin.
      * eexists. eexists. split; [|right; reflexivity].
        unfold LONG_MIN, LONG_MAX; lia.
      * exists n. eexists. split; [|left; reflexivity].
        rewrite Z.gtb_ltb in Hmax. apply Z.ltb_ge in Hmax, Hmin. lia.
Qed.

Lemma static_cast_int_in_range (n : Z) :
  INT_MIN <= n <= INT_MAX -> static_cast_int n = n.
Proof.
  unfold INT_MIN, INT_MAX, static_cast_int. intros Hn.
  rewrite Z.mod_small; lia.
Qed.

Lemma ParseInt_cases (builtin_FILE s : string) (w : World) :
  exists r w',
    ParseInt builtin_FILE s w = Normal (r, w') /\
    calls w' = CallParseInt s :: calls w /\
    ((exists n, r = Result.of_value n /\ INT_MIN <= n <= INT_MAX /\
                errno w' = 0) \/
     (exists c, (c = EINVAL \/ c = ERANGE) /\
                r = Result.of_error
                      (TypedError.make (ErrnoType_of c) builtin_FILE 282
                         "ParseInt") /\
                errno w' = c)).
Proof.
  unfold ParseInt, bind, log, set_errno. simpl.
  destruct (strtol_0_spec (c_str s) (mkWorld 0 (CallParseInt s :: calls w)))
    as (n & end_ & Hn & [Hs|Hs]); rewrite Hs; simpl.
  - destruct (Ascii.eqb (char_at (c_str s) end_) NUL); simpl.
    + destruct ((n >? INT_MAX) || (n <? INT_MIN)) eqn:Hrange; simpl.
      * eexists. eexists. split; [reflexivity|]. split; [reflexivity|].
        right. exists ERANGE. auto.
      * eexists. eexists. split; [reflexivity|]. split; [reflexivity|].
        left. exists n. apply orb_false_iff in Hrange as [Hmax Hmin].
        rewrite Z.gtb_ltb in Hmax. apply Z.ltb_ge in Hmax, Hmin.
        rewrite static_cast_int_in_range by lia. auto.
    + eexists. eexists. split; [reflexivity|]. split; [reflexivity|].
      right. exists EINVAL. auto.
  - eexists. eexists. split; [reflexivity|]. split; [reflexivity|].
    right. exists ERANGE. auto.
Qed.

(** X7.  [ParseInt] always returns, and what it returns is either a value,
    which then lies between [INT_MIN] and [INT_MAX] and leaves [errno] at 0,
    or an error created at line 282 whose code is [EINVAL] or [ERANGE] and
    equals [errno]: never a falsy error, never a result without a value. *)
Theorem ParseInt_total (builtin_FILE s : string) (w : World) :
  exists r w',
    ParseInt builtin_FILE s w = Normal (r, w') /\
    calls w' = CallParseInt s :: calls w /\
    consistent r /\
    operator_bool (Result.Error r) = negb (Result.OK r) /\
    ((exists n, r = Result.of_value n /\ INT_MIN <= n <= INT_MAX /\
                errno w' = 0) \/
     (exists c, (c = EINVAL \/ c = ERANGE) /\
                r = Result.of_error
                      (TypedError.make (ErrnoType_of c) builtin_FILE 282
                         "ParseInt") /\
                errno w' = c)).
Proof.
  destruct (ParseInt_cases builtin_FILE s w) as (r & w' & Hp & Hcalls & Hr).
  exists r, w'. split; [exact Hp|]. split; [exact Hcalls|].
  split; [|split; [|exact Hr]].
  - destruct Hr as [(n & -> & _)|(c & [-> | ->] & -> & _)]; reflexivity.
  - destruct Hr as [(n & -> & _)|(c & [-> | ->] & -> & _)]; reflexivity.
Qed.

(** Hence the result of [ParseInt] is consistent. *)
Lemma ParseInt_consistent (builtin_FILE s : string) (w w' : World)
    (r : Result.t Z ErrnoError) :
  ParseInt builtin_FILE s w = Normal (r, w') -> consistent r.
Proof.
  intros Hp.
  destruct (ParseInt_cases builtin_FILE s w) as (r0 & w0 & Hp0 & _ & Hr).
  rewrite Hp in Hp0. injection Hp0 as <- <-.
  destruct Hr as [(n & -> & _)|(c & [-> | ->] & -> & _)]; reflexivity.
Qed.

(** *** Parsing what was printed *)

(** The value of a digit string, most significant digit first. *)
Lemma rev_value_step (d x : Decimal.uint) :
  Z.of_N (Unsigned.of_lu (Decimal.revapp d x))
  = Z.of_N (Unsigned.of_lu (Decimal.rev d))
    + Z.of_N (Unsigned.of_lu x) * 10 ^ Z.of_N (Unsigned.usize d).
Proof.
  rewrite Unsigned.of_lu_revapp.
  rewrite N2Z.inj_add, N2Z.inj_mul, N2Z.inj_pow. reflexivity.
Qed.

Lemma digits_uint d acc len :
  digits 10 (NilEmpty.string_of_uint d) acc len
  = (acc * 10 ^ Z.of_N (Unsigned.usize d) + Z.of_N (Unsigned.of_lu (Decimal.rev d)),
     (len + Decimal.nb_digits d)%nat).
Proof.
  revert acc len. induction d; intros acc len;
    [simpl; f_equal; lia| ..];
    unfold Decimal.rev; cbn [Decimal.revapp]; rewrite rev_value_step;
    cbn [NilEmpty.string_of_uint Unsigned.usize Decimal.nb_digits];
    match goal with |- digits 10 (String ?c ?r) ?a ?l = _ =>
      change (digits 10 (String c r) a l) with (digits 10 r (a * 10 + (Z.of_N (N_of_ascii c) - 48)) (S l)) end;
    rewrite IHd;
    rewrite N2Z.inj_succ, Z.pow_succ_r by lia; f_equal; simpl Z.of_N; lia.
Qed.

Lemma nzhead_not_D0 d d' : Decimal.nzhead d <> Decimal.D0 d'.
Proof. induction d; simpl; try discriminate. exact IHd. Qed.

Lemma to_uint_head p :
  match Pos.to_uint p with Decimal.Nil | Decimal.D0 _ => False | _ => True end.
Proof.
  pose proof (Unsigned.to_of (Pos.to_uint p)) as Hn.
  rewrite Unsigned.of_to in Hn. simpl in Hn.
  pose proof (Unsigned.to_uint_nonzero p) as Hz.
  pose proof (Unsigned.to_uint_nonnil p) as Hnil.
  destruct (Pos.to_uint p) eqn:Hp; try exact I; try congruence.
  rewrite unorm_D0 in Hn. unfold Decimal.unorm in Hn.
  pose proof (nzhead_not_D0 u) as Hh.
  destruct (Decimal.nzhead u) eqn:Hu.
  - injection Hn as ->. now apply Hz.
  - now apply (Hh u0).
  - discriminate. - discriminate. - discriminate. - discriminate. - discriminate.
  - discriminate. - discriminate. - discriminate. - discriminate.
Qed.

Lemma get_length (s : string) : String.get (String.length s) s = None.
Proof. induction s; simpl; auto. Qed.

Lemma length_uint d : String.length (NilEmpty.string_of_uint d) = Decimal.nb_digits d.
Proof. induction d; simpl; congruence. Qed.

Lemma strtol_digits (negative : bool) (c : ascii) (r : string) (w : World)
    (m : Z) (k : nat) :
  is_digit 10 c = true -> c <> "0"%char ->
  digits 10 (String c r) 0 0 = (m, S k) ->
  strtol (if negative then String "-" (String c r) else String c r) 0 w
  = let n := if negative then - m else m in
    let end_ := ((if negative then 1 else 0) + S k)%nat in
    if n >? LONG_MAX then Normal ((LONG_MAX, end_), mkWorld ERANGE (calls w))
    else if n <? LONG_MIN then Normal ((LONG_MIN, end_), mkWorld ERANGE (calls w))
    else Normal ((n, end_), w).
Proof.
  intros Hdigit Hzero Hd.
  unfold strtol.
  change (negb ((0 =? 0) || (2 <=? 0) && (0 <=? 36))) with false.
  destruct c as [[] [] [] [] [] [] [] []]; try discriminate Hdigit;
    try (exfalso; apply Hzero; reflexivity);
    destruct negative;
    match goal with
    | |- context [skip_spaces ?s] => change (skip_spaces s) with (O, s)
    end;
    cbv beta iota zeta; change (0 =? 0) with true; cbv beta iota zeta;
    rewrite Hd; cbv beta iota zeta;
    unfold bind, set_errno, ret;
    repeat match goal with |- context [if ?b then _ else _] => destruct b end;
    reflexivity.
Qed.

Lemma strtol_printed (negative : bool) (p : positive) (w : World) :
  let s := NilEmpty.string_of_uint (Pos.to_uint p) in
  let n := if negative then Z.neg p else Z.pos p in
  let end_ := String.length (if negative then String "-" s else s) in
  strtol (if negative then String "-" s else s) 0 w
  = if n >? LONG_MAX then Normal ((LONG_MAX, end_), mkWorld ERANGE (calls w))
    else if n <? LONG_MIN then Normal ((LONG_MIN, end_), mkWorld ERANGE (calls w))
    else Normal ((n, end_), w).
Proof.
  pose proof (to_uint_head p) as Hhead.
  pose proof (digits_uint (Pos.to_uint p) 0 0) as Hd.
  rewrite <- Unsigned.of_uint_alt, Unsigned.of_to in Hd. simpl in Hd.
  destruct (Pos.to_uint p) as [|u|u|u|u|u|u|u|u|u|u] eqn:Hp; try contradiction;
    cbn [NilEmpty.string_of_uint Decimal.nb_digits] in *;
    cbv zeta;
    (erewrite strtol_digits; [|reflexivity|discriminate|exact Hd]);
    cbv zeta; destruct negative; simpl String.length;
    rewrite ?length_uint; reflexivity.
Qed.

Lemma c_str_uint d : c_str (NilEmpty.string_of_uint d) = NilEmpty.string_of_uint d.
Proof. induction d; simpl; congruence. Qed.

Lemma show_int_signed (negative : bool) (p : positive) :
  show_int (if negative then Z.neg p else Z.pos p)
  = if negative then String "-" (NilEmpty.string_of_uint (Pos.to_uint p))
    else NilEmpty.string_of_uint (Pos.to_uint p).
Proof.
  unfold show_int, NilZero.string_of_int, NilZero.string_of_uint.
  pose proof (to_uint_head p).
  destruct negative; simpl Z.to_int; destruct (Pos.to_uint p); 
    try contradiction; reflexivity.
Qed.

Lemma ParseInt_signed (builtin_FILE : string) (negative : bool) (p : positive)
    (w : World) :
  let n := if negative then Z.neg p else Z.pos p in
  ParseInt builtin_FILE (show_int n) w
  = if (INT_MIN <=? n) && (n <=? INT_MAX)
    then Normal (Result.of_value n,
                 mkWorld 0 (CallParseInt (show_int n) :: calls w))
    else Normal (Result.of_error
                   (TypedError.make (ErrnoType_of ERANGE) builtin_FILE 282
                      "ParseInt"),
                 mkWorld ERANGE (CallParseInt (show_int n) :: calls w)).
Proof.
  intros n. unfold ParseInt, bind, log, set_errno. simpl.
  set (w1 := mkWorld 0 (CallParseInt (show_int n) :: calls w)).
  assert (Hc : c_str (show_int n)
               = if negative
                 then String "-" (NilEmpty.string_of_uint (Pos.to_uint p))
                 else NilEmpty.string_of_uint (Pos.to_uint p)).
  { unfold n. rewrite show_int_signed. destruct negative; simpl;
      now rewrite c_str_uint. }
  rewrite Hc. rewrite (strtol_printed negative p w1). cbv zeta. fold n.
  assert (Hand : (INT_MIN <=? n) && (n <=? INT_MAX)
                 = negb ((n >? INT_MAX) || (n <? INT_MIN))).
  { rewrite Z.gtb_ltb.
    destruct (Z.leb_spec INT_MIN n), (Z.leb_spec n INT_MAX),
      (Z.ltb_spec INT_MAX n), (Z.ltb_spec n INT_MIN); simpl; try reflexivity;
      lia. }
  rewrite Hand.
  destruct (n >? LONG_MAX) eqn:Hmax.
  - simpl. replace (n >? INT_MAX) with true; [reflexivity|].
    symmetry. rewrite Z.gtb_ltb in *. apply Z.ltb_lt. apply Z.ltb_lt in Hmax.
    unfold INT_MAX, LONG_MAX in *. lia.
  - destruct (n <? LONG_MIN) eqn:Hmin.
    + simpl. replace (n <? INT_MIN) with true; [now rewrite orb_true_r|].
      symmetry. apply Z.ltb_lt. apply Z.ltb_lt in Hmin.
      unfold INT_MIN, LONG_MIN in *. lia.
    + simpl. unfold char_at. rewrite get_length. simpl.
      destruct ((n >? INT_MAX) || (n <? INT_MIN)) eqn:Hrange; simpl.
      * reflexivity.
      * apply orb_false_iff in Hrange as [Hgt Hlt].
        rewrite Z.gtb_ltb in Hgt. apply Z.ltb_ge in Hgt, Hlt.
        rewrite static_cast_int_in_range by lia. reflexivity.
Qed.

Lemma ParseInt_printed (builtin_FILE : string) (n : Z) (w : World) :
  ParseInt builtin_FILE (show_int n) w
  = if (INT_MIN <=? n) && (n <=? INT_MAX)
    then Normal (Result.of_value n,
                 mkWorld 0 (CallParseInt (show_int n) :: calls w))
    else Normal (Result.of_error
                   (TypedError.make (ErrnoType_of ERANGE) builtin_FILE 282
                      "ParseInt"),
                 mkWorld ERANGE (CallParseInt (show_int n) :: calls w)).
Proof.
  destruct n as [|p|p].
  - reflexivity.
  - apply (ParseInt_signed builtin_FILE false p w).
  - apply (ParseInt_signed builtin_FILE true p w).
Qed.

(** X8.  Printing and parsing: [ParseInt] applied to the decimal digits of
    [n], as [std::cout << n] writes them, gives [n] back when [n] is an
    [int], with [errno] 0; when [n] is below [INT_MIN] or above [INT_MAX] it
    gives the error [ERANGE], whether or not [n] fits a [long]. *)
Theorem ParseInt_show_int (builtin_FILE : string) (n : Z) (w : World) :
  (INT_MIN <= n <= INT_MAX ->
   ParseInt builtin_FILE (show_int n) w
   = Normal (Result.of_value n,
             mkWorld 0 (CallParseInt (show_int n) :: calls w))) /\
  (~ INT_MIN <= n <= INT_MAX ->
   ParseInt builtin_FILE (show_int n) w
   = Normal (Result.of_error
               (TypedError.make (ErrnoType_of ERANGE) builtin_FILE 282
                  "ParseInt"),
             mkWorld ERANGE (CallParseInt (show_int n) :: calls w))).
Proof.
  rewrite ParseInt_printed. split; intros Hn.
  - replace ((INT_MIN <=? n) && (n <=? INT_MAX)) with true; [reflexivity|].
    symmetry. apply andb_true_iff. split; apply Z.leb_le; lia.
  - replace ((INT_MIN <=? n) && (n <=? INT_MAX)) with false; [reflexivity|].
    symmetry. apply andb_false_iff.
    destruct (Z.leb_spec INT_MIN n); [|now left].
    destruct (Z.leb_spec n INT_MAX); [|now right]. lia.
Qed.

Lemma ParseInt_show_int_witness :
  ParseInt "result.cpp" (show_int (-2147483648)) (mkWorld 34 [])
  = Normal (Result.of_value (-2147483648),
            mkWorld 0 [CallParseInt "-2147483648"]).
Proof.
  apply (ParseInt_show_int "result.cpp" (-2147483648) (mkWorld 34 [])).
  unfold INT_MIN, INT_MAX. lia.
Defined.

(** X9.  A string that starts with anything but white space, a sign or a
    decimal digit is not a number: [ParseInt] fails with [EINVAL], which is
    also left in [errno]. *)
Theorem ParseInt_not_a_number (builtin_FILE : string) (c : ascii)
    (r : string) (w : World) :
  c <> NUL -> isspace c = false -> c <> "+"%char -> c <> "-"%char ->
  is_digit 10 c = false ->
  ParseInt builtin_FILE (String c r) w
  = Normal (Result.of_error
              (TypedError.make (ErrnoType_of EINVAL) builtin_FILE 282
                 "ParseInt"),
            mkWorld EINVAL (CallParseInt (String c r) :: calls w)).
Proof.
  intros Hnul Hspace Hplus Hminus Hdigit.
  destruct c as [[] [] [] [] [] [] [] []];
    try discriminate Hspace; try discriminate Hdigit;
    try (exfalso; apply Hnul; reflexivity);
    try (exfalso; apply Hplus; reflexivity);
    try (exfalso; apply Hminus; reflexivity);
    reflexivity.
Qed.

Lemma ParseInt_not_a_number_witness :
  ParseInt "result.cpp" "bad" (mkWorld 0 [])
  = Normal (Result.of_error
              (TypedError.make (ErrnoType_of EINVAL) "result.cpp" 282
                 "ParseInt"),
            mkWorld EINVAL [CallParseInt "bad"]).
Proof.
  apply (ParseInt_not_a_number "result.cpp" "b" "ad" (mkWorld 0 []));
    (discriminate || reflexivity).
Defined.

(** *** A number followed by something else *)

Lemma digits_stop (c : ascii) (r : string) (acc : Z) (len : nat) :
  is_digit 10 c = false -> digits 10 (String c r) acc len = (acc, len).
Proof.
  unfold is_digit. simpl. destruct (digit_value c) as [d|]; [|reflexivity].
  now intros ->.
Qed.

Lemma append_cons (c : ascii) (s r : string) :
  String c s ++ r = String c (s ++ r).
Proof. reflexivity. Qed.

Lemma digits_uint_app d rest acc len :
  (forall a l, digits 10 rest a l = (a, l)) ->
  digits 10 (NilEmpty.string_of_uint d ++ rest) acc len
  = (acc * 10 ^ Z.of_N (Unsigned.usize d)
     + Z.of_N (Unsigned.of_lu (Decimal.rev d)),
     (len + Decimal.nb_digits d)%nat).
Proof.
  intros Hrest. revert acc len. induction d; intros acc len;
    [simpl; rewrite Hrest; f_equal; lia| ..];
    unfold Decimal.rev; cbn [Decimal.revapp]; rewrite rev_value_step;
    cbn [NilEmpty.string_of_uint Unsigned.usize Decimal.nb_digits];
    rewrite append_cons;
    match goal with |- digits 10 (String ?c ?r) ?a ?l = _ =>
      change (digits 10 (String c r) a l)
        with (digits 10 r (a * 10 + (Z.of_N (N_of_ascii c) - 48)) (S l)) end;
    rewrite IHd;
    rewrite N2Z.inj_succ, Z.pow_succ_r by lia; f_equal; simpl Z.of_N; lia.
Qed.

Lemma strtol_printed_app (negative : bool) (p : positive) (rest : string)
    (w : World) :
  (forall a l, digits 10 rest a l = (a, l)) ->
  let s := NilEmpty.string_of_uint (Pos.to_uint p) in
  let n := if negative then Z.neg p else Z.pos p in
  let end_ := String.length (if negative then String "-" s else s) in
  strtol ((if negative then String "-" s else s) ++ rest) 0 w
  = if n >? LONG_MAX then Normal ((LONG_MAX, end_), mkWorld ERANGE (calls w))
    else if n <? LONG_MIN then Normal ((LONG_MIN, end_), mkWorld ERANGE (calls w))
    else Normal ((n, end_), w).
Proof.
  intros Hrest.
  pose proof (to_uint_head p) as Hhead.
  pose proof (digits_uint_app (Pos.to_uint p) rest 0 0 Hrest) as Hd.
  rewrite <- Unsigned.of_uint_alt, Unsigned.of_to in Hd. simpl in Hd.
  destruct (Pos.to_uint p) as [|u|u|u|u|u|u|u|u|u|u] eqn:Hp; try contradiction;
    cbn [NilEmpty.string_of_uint Decimal.nb_digits] in *;
    rewrite append_cons in Hd; cbv zeta;
    match goal with
    | |- strtol ((if negative then String "-" (String ?c ?r) else _) ++ rest) 0 w = _ =>
        replace ((if negative then String "-" (String c r) else String c r) ++ rest)
          with (if negative then String "-" (String c (r ++ rest)) else String c (r ++ rest))
          by (now destruct negative)
    end;
    (erewrite strtol_digits; [|reflexivity|discriminate|exact Hd]);
    cbv zeta; destruct negative; simpl String.length;
    rewrite ?length_uint; reflexivity.
Qed.

Lemma c_str_uint_app d (r : string) :
  c_str (NilEmpty.string_of_uint d ++ r) = NilEmpty.string_of_uint d ++ c_str r.
Proof.
  induction d; cbn [NilEmpty.string_of_uint]; [reflexivity| ..];
    rewrite append_cons; simpl; rewrite IHd; reflexivity.
Qed.

Lemma get_app_length (s : string) (c : ascii) (r : string) :
  String.get (String.length s) (s ++ String c r) = Some c.
Proof. induction s; [reflexivity|]. rewrite append_cons. simpl. exact IHs. Qed.

(** X10.  A number followed by anything but a digit is rejected: for [n]
    other than 0 that fits a [long], [ParseInt] applied to the digits of [n]
    followed by a character that is neither a decimal digit nor NUL fails
    with [EINVAL], even when [n] is out of the range of [int]. *)
Theorem ParseInt_trailing_garbage (builtin_FILE : string) (n : Z) (c : ascii)
    (r : string) (w : World) :
  n <> 0 -> LONG_MIN <= n <= LONG_MAX ->
  c <> NUL -> is_digit 10 c = false ->
  ParseInt builtin_FILE (show_int n +:+ String c r) w
  = Normal (Result.of_error
              (TypedError.make (ErrnoType_of EINVAL) builtin_FILE 282
                 "ParseInt"),
            mkWorld EINVAL
              (CallParseInt (show_int n +:+ String c r) :: calls w)).
Proof.
  intros Hn Hlong Hnul Hdigit.
  assert (Hsigned : exists (negative : bool) (p : positive),
             n = if negative then Z.neg p else Z.pos p).
  { destruct n as [|p|p]; [congruence|exists false, p|exists true, p];
      reflexivity. }
  destruct Hsigned as (negative & p & ->).
  set (n := if negative then Z.neg p else Z.pos p) in *.
  set (s := NilEmpty.string_of_uint (Pos.to_uint p)).
  assert (Hshow : show_int n = if negative then String "-" s else s)
    by apply show_int_signed.
  assert (Hceq : Ascii.eqb c NUL = false) by now apply Ascii.eqb_neq.
  assert (Hc : c_str (show_int n +:+ String c r)
               = (if negative then String "-" s else s) ++ String c (c_str r)).
  { rewrite Hshow. unfold s. destruct negative; rewrite ?append_cons;
      simpl; rewrite c_str_uint_app; simpl; now rewrite Hceq. }
  unfold ParseInt, bind, log, set_errno. simpl. rewrite Hc. unfold s.
  rewrite strtol_printed_app by (intros a l; now apply digits_stop).
  cbv zeta. fold n.
  replace (n >? LONG_MAX) with false
    by (symmetry; rewrite Z.gtb_ltb; apply Z.ltb_ge; lia).
  replace (n <? LONG_MIN) with false by (symmetry; apply Z.ltb_ge; lia).
  simpl. unfold char_at. rewrite get_app_length. rewrite Hceq. reflexivity.
Qed.

Lemma ParseInt_trailing_garbage_witness :
  ParseInt "result.cpp" "12abc" (mkWorld 0 [])
  = Normal (Result.of_error
              (TypedError.make (ErrnoType_of EINVAL) "result.cpp" 282
                 "ParseInt"),
            mkWorld EINVAL [CallParseInt "12abc"]).
Proof.
  apply (ParseInt_trailing_garbage "result.cpp" 12 "a" "bc" (mkWorld 0 []));
    try discriminate; try reflexivity.
  unfold LONG_MIN, LONG_MAX. lia.
Defined.

(** ** The demonstration code: files *)

(** X11.  [OpenFile] always returns, writes nothing but the log, and its
    result is consistent: it is OK, holding [File{name}], exactly when
    [name] is a key of [file_content]; otherwise it holds the error of code
    [EEXIST] created at line 266. *)
Theorem OpenFile_total (builtin_FILE name : string) (w : World) :
  exists r,
    OpenFile builtin_FILE name w
    = Normal (r, mkWorld (errno w) (CallOpenFile name :: calls w)) /\
    consistent r /\
    (Result.OK r = true <-> is_Some (file_content !! name)) /\
    (Result.OK r = true -> Result.Value r = Normal (File.mk name)) /\
    (Result.OK r = false ->
     Result.Error r
     = TypedError.make (ErrnoType_of EEXIST) builtin_FILE 266 "OpenFile").
Proof.
  destruct (file_content !! name) as [content|] eqn:Hlookup.
  - eexists. split; [apply (OpenFile_found _ _ content _ Hlookup)|].
    split; [reflexivity|]. split; [split; [eauto|reflexivity]|].
    split; [reflexivity|discriminate].
  - eexists. split; [apply (OpenFile_missing _ _ _ Hlookup)|].
    split; [reflexivity|]. split; [split; [discriminate|]|].
    + intros [x Hx]. discriminate.
    + split; [discriminate|reflexivity].
Qed.

(** X12.  [File::Read] throws exactly when the name of the file is not a key
    of [file_content], and otherwise gives the content as an OK result.  A
    [File] obtained from a successful [OpenFile] can always be read. *)
Theorem File_Read_total (builtin_FILE : string) (f : File.t) (w : World) :
  (file_content !! File.name_ f = None <-> File.Read f w = Panic) /\
  (forall content, file_content !! File.name_ f = Some content ->
     File.Read f w
     = Normal (Result.of_value content,
               mkWorld (errno w) (CallRead (File.name_ f) :: calls w))) /\
  (forall name r w1 opened,
     OpenFile builtin_FILE name w = Normal (r, w1) ->
     Result.Value r = Normal opened ->
     exists content,
       file_content !! name = Some content /\
       File.Read opened w1
       = Normal (Result.of_value content,
                 mkWorld (errno w) (CallRead name :: CallOpenFile name
                                    :: calls w))).
Proof.
  assert (Hsome : forall content, file_content !! File.name_ f = Some content ->
            File.Read f w
            = Normal (Result.of_value content,
                      mkWorld (errno w) (CallRead (File.name_ f) :: calls w))).
  { intros content Hc. unfold File.Read, bind, log. simpl. now rewrite Hc. }
  split; [|split; [exact Hsome|]].
  - split.
    + intros Hnone. unfold File.Read, bind, log. simpl. now rewrite Hnone.
    + intros Hpanic. destruct (file_content !! File.name_ f) eqn:Hl;
        [|reflexivity]. rewrite (Hsome _ eq_refl) in Hpanic. discriminate.
  - intros name r w1 opened Hopen Hvalue.
    destruct (file_content !! name) as [content|] eqn:Hlookup.
    + rewrite (OpenFile_found _ _ content _ Hlookup) in Hopen.
      injection Hopen as <- <-. injection Hvalue as <-.
      exists content. split; [reflexivity|].
      unfold File.Read, bind, log. simpl. now rewrite Hlookup.
    + rewrite (OpenFile_missing _ _ _ Hlookup) in Hopen.
      injection Hopen as <- <-. discriminate.
Qed.

Example Read_of_unopened_file (w : World) :
  File.Read (File.mk "missing") w = Panic.
Proof. reflexivity. Qed.

(** ** The demonstration code: the pipeline *)

Lemma GetIntFromFile_parse (builtin_FILE name content : string)
    (w w' : World) (r : Result.t Z ErrnoError) :
  file_content !! name = Some content ->
  ParseInt builtin_FILE content
    (mkWorld (errno w) (CallRead name :: CallOpenFile name :: calls w))
  = Normal (r, w') ->
  GetIntFromFile builtin_FILE name w
  = Normal (Result.mk (Result.value_ r) (GenericError.from (Result.error_ r)),
            w').
Proof.
  intros Hlookup Hparse. unfold GetIntFromFile.
  rewrite TRY_ok_continues
    with (1 := OpenFile_found builtin_FILE name content w Hlookup)
         (v := File.mk name); [|reflexivity|reflexivity].
  assert (Hread : File.Read (File.mk name)
                    (mkWorld (errno w) (CallOpenFile name :: calls w))
                  = Normal (Result.of_value content,
                            mkWorld (errno w)
                              (CallRead name :: CallOpenFile name :: calls w))).
  { unfold File.Read, bind, log. simpl. now rewrite Hlookup. }
  rewrite TRY_ok_continues with (1 := Hread) (v := content);
    [|reflexivity|reflexivity].
  destruct (ParseInt_cases builtin_FILE content
              (mkWorld (errno w) (CallRead name :: CallOpenFile name :: calls w)))
    as (r0 & w0 & Hp0 & _ & Hr).
  rewrite Hparse in Hp0. injection Hp0 as <- <-.
  destruct Hr as [(n & -> & _)|(c & Hc & -> & _)].
  - rewrite TRY_ok_continues with (1 := Hparse) (v := n); reflexivity.
  - rewrite TRY_error_returns with (1 := Hparse); [reflexivity|].
    destruct Hc as [-> | ->]; reflexivity.
Qed.

(** X13.  For a key of [file_content], [GetIntFromFile] is [ParseInt] of the
    content with the error type erased: the same value, or the same error
    record (code, file, line, function) as a [GenericError], and the same
    final [errno]. *)
Theorem GetIntFromFile_found (builtin_FILE name content : string)
    (w w' : World) (r : Result.t Z ErrnoError) :
  file_content !! name = Some content ->
  ParseInt builtin_FILE content
    (mkWorld (errno w) (CallRead name :: CallOpenFile name :: calls w))
  = Normal (r, w') ->
  exists r',
    GetIntFromFile builtin_FILE name w = Normal (r', w') /\
    Result.OK r' = Result.OK r /\
    Result.Value r' = Result.Value r /\
    Record_ (Result.Error r') = Record_ (Result.Error r) /\
    GenericError.Code (Result.Error r') = RawCode (Result.Error r) /\
    File (Result.Error r') = File (Result.Error r) /\
    Line (Result.Error r') = Line (Result.Error r) /\
    Function (Result.Error r') = Function (Result.Error r).
Proof.
  intros Hlookup Hparse.
  exists (Result.mk (Result.value_ r) (GenericError.from (Result.error_ r))).
  split; [exact (GetIntFromFile_parse _ _ _ _ _ _ Hlookup Hparse)|].
  repeat split.
Qed.

Lemma GetIntFromFile_found_witness :
  exists r',
    GetIntFromFile "result.cpp" "bad" (mkWorld 0 [])
    = Normal (r', mkWorld EINVAL [CallParseInt "bad"; CallRead "bad";
                                  CallOpenFile "bad"]) /\
    Result.OK r' = false /\
    GenericError.Code (Result.Error r') = EINVAL /\
    Line (Result.Error r') = Normal 282.
Proof.
  destruct (GetIntFromFile_found "result.cpp" "bad" "bad" (mkWorld 0 [])
              (mkWorld EINVAL [CallParseInt "bad"; CallRead "bad";
                               CallOpenFile "bad"])
              (Result.of_error
                 (TypedError.make (ErrnoType_of EINVAL) "result.cpp" 282
                    "ParseInt"))
              eq_refl eq_refl)
    as (r' & Hget & Hok & _ & _ & Hcode & _ & Hline & _).
  exists r'. split; [exact Hget|]. split; [exact Hok|].
  split; [exact Hcode|exact Hline].
Defined.

(** X14.  [GetIntFromFile] always returns, for every file name: never an
    exception, never undefined behaviour.  Its result is consistent; a value
    lies between [INT_MIN] and [INT_MAX]; an error is truthy, its code is
    [EEXIST], [EINVAL] or [ERANGE], and it is [EEXIST] exactly when the name
    is not a key of [file_content], in which case [errno] is not written. *)
Theorem GetIntFromFile_total (builtin_FILE name : string) (w : World) :
  exists r w',
    GetIntFromFile builtin_FILE name w = Normal (r, w') /\
    consistent r /\
    (forall n, Result.Value r = Normal n -> INT_MIN <= n <= INT_MAX) /\
    (Result.OK r = false ->
     operator_bool (Result.Error r) = true /\
     (GenericError.Code (Result.Error r) = EEXIST \/
      GenericError.Code (Result.Error r) = EINVAL \/
      GenericError.Code (Result.Error r) = ERANGE) /\
     (GenericError.Code (Result.Error r) = EEXIST <->
      file_content !! name = None)) /\
    (file_content !! name = None -> errno w' = errno w).
Proof.
  destruct (file_content !! name) as [content|] eqn:Hlookup.
  - destruct (ParseInt_cases builtin_FILE content
                (mkWorld (errno w)
                   (CallRead name :: CallOpenFile name :: calls w)))
      as (r0 & w0 & Hp0 & _ & Hr).
    eexists. eexists.
    split; [apply (GetIntFromFile_parse _ _ _ _ _ _ Hlookup Hp0)|].
    destruct Hr as [(n & -> & Hn & _)|(c & Hc & -> & _)].
    + split; [reflexivity|]. split; [now intros n' [= <-]|].
      split; [discriminate|discriminate].
    + split; [destruct Hc as [-> | ->]; reflexivity|].
      split; [discriminate|]. split; [|discriminate].
      intros _. destruct Hc as [-> | ->]; (split; [reflexivity|]);
        (split; [auto|split; discriminate]).
  - eexists. eexists.
    split; [apply (GetIntFromFile_missing _ _ _ Hlookup)|].
    split; [reflexivity|]. split; [discriminate|].
    split; [|reflexivity]. intros _. split; [reflexivity|].
    split; [now left|]. split; reflexivity.
Qed.

(** X15.  [ParseInt(str, default_value)] never fails: it returns the parsed
    [int] when [ParseInt(str)] succeeds and [default_value] otherwise, and
    [errno] tells which; in particular it gives back every [int] from its
    printed digits, and the default for a number out of range. *)
Theorem ParseInt_or_total (builtin_FILE str : string) (d : Z) (w : World) :
  (exists n w',
     ParseInt_or builtin_FILE str d w = Normal (n, w') /\
     ((errno w' = 0 /\ INT_MIN <= n <= INT_MAX /\
       ParseInt builtin_FILE str w = Normal (Result.of_value n, w')) \/
      (errno w' <> 0 /\ n = d))) /\
  (forall m, INT_MIN <= m <= INT_MAX ->
     ParseInt_or builtin_FILE (show_int m) d w
     = Normal (m, mkWorld 0 (CallParseInt (show_int m) :: calls w))) /\
  (forall m, ~ INT_MIN <= m <= INT_MAX ->
     ParseInt_or builtin_FILE (show_int m) d w
     = Normal (d, mkWorld ERANGE (CallParseInt (show_int m) :: calls w))).
Proof.
  split; [|split].
  - destruct (ParseInt_cases builtin_FILE str w) as (r & w' & Hp & _ & Hr).
    unfold ParseInt_or, bind. rewrite Hp.
    destruct Hr as [(n & -> & Hn & He)|(c & Hc & -> & He)].
    + exists n, w'. split; [reflexivity|]. left. auto.
    + exists d, w'. split; [destruct Hc as [-> | ->]; reflexivity|].
      right. split; [|reflexivity]. rewrite He.
      destruct Hc as [-> | ->]; discriminate.
  - intros m Hm. unfold ParseInt_or, bind. rewrite ParseInt_printed.
    replace ((INT_MIN <=? m) && (m <=? INT_MAX)) with true; [reflexivity|].
    symmetry. apply andb_true_iff. split; apply Z.leb_le; lia.
  - intros m Hm. unfold ParseInt_or, bind. rewrite ParseInt_printed.
    replace ((INT_MIN <=? m) && (m <=? INT_MAX)) with false; [reflexivity|].
    symmetry. apply andb_false_iff.
    destruct (Z.leb_spec INT_MIN m); [|now left].
    destruct (Z.leb_spec m INT_MAX); [|now right]. lia.
Qed.

Lemma ParseInt_or_total_witness :
  ParseInt_or "result.cpp" (show_int 2147483647) (-1) (mkWorld 0 [])
  = Normal (2147483647, mkWorld 0 [CallParseInt "2147483647"]) /\
  ParseInt_or "result.cpp" (show_int 2147483648) (-1) (mkWorld 0 [])
  = Normal (-1, mkWorld ERANGE [CallParseInt "2147483648"]).
Proof.
  split.
  - apply (ParseInt_or_total "result.cpp" "" (-1) (mkWorld 0 [])).
    unfold INT_MIN, INT_MAX. lia.
  - apply (ParseInt_or_total "result.cpp" "" (-1) (mkWorld 0 [])).
    unfold INT_MIN, INT_MAX. lia.
Defined.

(** ** TRY: the unit laws *)

(** X16.  [TRY] on an operand that just succeeds with [v] is the rest of the
    function applied to [v]; and a function that does nothing but [TRY] an
    operand and return its value returns what the operand returns, when that
    was built by one of the two constructors of [Result] (from a value, or
    from a truthy error). *)
Theorem TRY_unit_laws {S T E : Type} `{ErrorType E} :
  (forall (R E' : Type) (HI : ErrorInto E E') (v : T)
          (rest : T -> M S (Result.t R E')) (s : S),
     TRY (ret (Result.of_value v)) rest s = rest v s) /\
  (forall (stmt : M S (Result.t T E)) (s s1 : S) (r : Result.t T E),
     stmt s = Normal (r, s1) ->
     (exists v, r = Result.of_value v) \/
     (exists e, operator_bool e = true /\ r = Result.of_error e) ->
     TRY (E':=E) stmt (fun v => ret (Result.of_value v)) s = stmt s).
Proof.
  split.
  - intros R E' HI v rest s.
    apply TRY_ok_continues with (result := Result.of_value v);
      [reflexivity|apply OK_of_value|reflexivity].
  - intros stmt s s1 r Hstmt [(v & ->)|(e & He & ->)].
    + rewrite TRY_ok_continues with (1 := Hstmt) (v := v);
        [now rewrite Hstmt|apply OK_of_value|reflexivity].
    + rewrite TRY_error_returns with (1 := Hstmt); [now rewrite Hstmt|].
      unfold Result.OK, Result.of_error. simpl. now apply truthy_not.
Qed.

(** ** main *)

Lemma append_assoc (a b c : string) : (a +:+ b) +:+ c = a +:+ (b +:+ c).
Proof.
  induction a as [|x a IH]; [reflexivity|].
  rewrite !append_cons. now rewrite IH.
Qed.

(** X17.  [main] runs to its end whatever [errno] and the file name are: no
    accessor is used outside its precondition.  It prints the location and
    code of the parse error of "bad", then -1, then 100; [errno] is 0 at the
    end. *)
Theorem main_output (builtin_FILE : string) (w : World) :
  exists w',
    main builtin_FILE w
    = Normal ("In " +:+ builtin_FILE +:+ ":282:ParseInt Code: 22" +:+ newline
              +:+ "-1" +:+ newline +:+ "100" +:+ newline, w') /\
    errno w' = 0 /\
    calls w' = CallParseInt "100" :: CallRead "number"
               :: CallOpenFile "number" :: CallParseInt "bad"
               :: CallRead "bad" :: CallOpenFile "bad" :: calls w.
Proof.
  assert (Hout : ("In " +:+ builtin_FILE +:+ ":282:ParseInt Code: 22"
                  +:+ newline) +:+ "-1" +:+ newline +:+ "100" +:+ newline
                 = "In " +:+ builtin_FILE +:+ ":282:ParseInt Code: 22"
                   +:+ newline +:+ "-1" +:+ newline +:+ "100" +:+ newline).
  { change ("In " +:+ builtin_FILE +:+ ":282:ParseInt Code: 22" +:+ newline)
      with (String "I" (String "n" (String " " (builtin_FILE
              +:+ (":282:ParseInt Code: 22" +:+ newline))))).
    rewrite !append_cons. do 3 f_equal.
    now rewrite append_assoc. }
  exists (mkWorld 0 (CallParseInt "100" :: CallRead "number"
                     :: CallOpenFile "number" :: CallParseInt "bad"
                     :: CallRead "bad" :: CallOpenFile "bad" :: calls w)).
  split; [|split; reflexivity].
  rewrite <- Hout. unfold main, bind.
  assert (Hbad : GetIntFromFile builtin_FILE "bad" w
                 = Normal (Result.of_error
                             (GenericError.make EINVAL builtin_FILE 282
                                "ParseInt"),
                           mkWorld EINVAL
                             (CallParseInt "bad" :: CallRead "bad"
                              :: CallOpenFile "bad" :: calls w)))
    by reflexivity.
  rewrite Hbad. cbv beta iota. simpl lift.
  reflexivity.
Qed.

(** ** The demonstration code: what [ParseInt] looks at *)

(** With base 0, what [strtol] returns and whether it sets [errno] depend
    on the string alone. *)
Lemma strtol_0_uniform (nptr : string) :
  exists n end_ (range : bool),
    forall w,
      strtol nptr 0 w
      = Normal ((n, end_), if range then mkWorld ERANGE (calls w) else w).
Proof.
  unfold strtol. simpl negb. cbv iota.
  destruct (skip_spaces nptr) as [nspace s1].
  match goal with
  | |- context [match ?X with (_, _) => _ end] =>
      destruct X as [[negative nsign] s2]
  end.
  match goal with
  | |- context [match ?X with (_, _) => _ end] =>
      destruct X as [[base' nprefix] s3]
  end.
  destruct (digits base' s3 0 0) as [magnitude ndigits].
  destruct ndigits as [|k].
  - exists 0, O, false. reflexivity.
  - destruct ((if negative then - magnitude else magnitude) >? LONG_MAX).
    + eexists. eexists. exists true. reflexivity.
    + destruct ((if negative then - magnitude else magnitude) <? LONG_MIN).
      * eexists. eexists. exists true. reflexivity.
      * eexists. eexists. exists false. reflexivity.
Qed.

Lemma c_str_NUL (s t : string) : c_str (s +:+ String NUL t) = c_str s.
Proof.
  induction s as [|c s IH]; [reflexivity|].
  rewrite append_cons. simpl. now rewrite IH.
Qed.

(** X18.  The result of [ParseInt] and the final [errno] depend on nothing
    but the argument read as a C string: not on the value [errno] had
    before, and not on what follows a NUL character inside the string. *)
Theorem ParseInt_reads_c_str (builtin_FILE s1 s2 : string) (w1 w2 : World) :
  c_str s1 = c_str s2 ->
  exists r e,
    ParseInt builtin_FILE s1 w1
    = Normal (r, mkWorld e (CallParseInt s1 :: calls w1)) /\
    ParseInt builtin_FILE s2 w2
    = Normal (r, mkWorld e (CallParseInt s2 :: calls w2)).
Proof.
  intros Hc. unfold ParseInt, bind, log, set_errno. simpl. rewrite <- Hc.
  destruct (strtol_0_uniform (c_str s1)) as (n & end_ & range & Hs).
  rewrite !Hs. destruct range; simpl.
  - eexists. eexists. split; reflexivity.
  - destruct (Ascii.eqb (char_at (c_str s1) end_) NUL); simpl.
    + destruct ((n >? INT_MAX) || (n <? INT_MIN)); simpl;
        eexists; eexists; split; reflexivity.
    + eexists. eexists. split; reflexivity.
Qed.

Lemma ParseInt_reads_c_str_witness :
  exists r e,
    ParseInt "result.cpp" ("12" +:+ String NUL "abc") (mkWorld 34 [])
    = Normal (r, mkWorld e [CallParseInt ("12" +:+ String NUL "abc")]) /\
    ParseInt "result.cpp" "12" (mkWorld 0 [])
    = Normal (r, mkWorld e [CallParseInt "12"]).
Proof.
  apply (ParseInt_reads_c_str "result.cpp" ("12" +:+ String NUL "abc") "12"
           (mkWorld 34 []) (mkWorld 0 [])).
  apply (c_str_NUL "12" "abc").
Defined.

Example ParseInt_embedded_NUL (w : World) :
  ParseInt "result.cpp" ("12" +:+ String NUL "abc") w
  = Normal (Result.of_value 12,
            mkWorld 0 (CallParseInt ("12" +:+ String NUL "abc") :: calls w)).
Proof. reflexivity. Qed.
